(** * The WebSocket transport of viem: request path and subscription lifecycle

    Shallow embedding of [src/clients/transports/webSocket.ts].

    The transport is event driven: the closures created by [subscribe]
    ([onSocketCreated], [onResponse], the close handler, [cleanup],
    [unsubscribe]) are run by the socket registry, by the RPC dispatcher and
    by the consumer.  The closure variables become the fields of a record,
    every closure becomes a function on that record that also returns the
    calls it makes to its collaborators, and the collaborators
    ([subscribeSocket], [rpc.webSocket], the socket's [readyState]) are the
    environment: they appear as events that may arrive in any order. *)

From stdpp Require Import base option list strings gmap.
From Stdlib Require Import ZArith Lia.

Local Open Scope string_scope.
Local Open Scope list_scope.
Local Open Scope nat_scope.

(** ** JavaScript values used by the transport *)

(** A promise settles at most once: later calls of [resolve] or [reject]
    are ignored. *)
Inductive Promise (A E : Type) : Type :=
| Pending
| Fulfilled (a : A)
| Rejected (e : E).
Arguments Pending {A E}.
Arguments Fulfilled {A E} a.
Arguments Rejected {A E} e.

Definition resolve {A E} (a : A) (p : Promise A E) : Promise A E :=
  match p with Pending => Fulfilled a | _ => p end.

Definition reject {A E} (e : E) (p : Promise A E) : Promise A E :=
  match p with Pending => Rejected e | _ => p end.

Definition is_fulfilled {A E} (p : Promise A E) : bool :=
  match p with Fulfilled _ => true | _ => false end.

(** A socket object is identified by its reference ([===] in the source). *)
Definition Socket := nat.

(** [Hash]: the server-assigned subscription identifier. *)
Definition Hash := string.

(** [WebSocket.readyState]; [OPEN] is the constant the source compares with. *)
Inductive ReadyState := CONNECTING | OPEN | CLOSING | CLOSED.

Global Instance ReadyState_eq_dec : EqDecision ReadyState.
Proof. solve_decision. Defined.

(** The JSON-RPC error object of a response. *)
Record RpcError := { code : Z; message : string }.

Global Instance RpcError_eq_dec : EqDecision RpcError.
Proof. solve_decision. Defined.

(** [params] of a push notification: [{subscription, result}]. *)
Record Notification := { subscription : Hash; payload : string }.

Global Instance Notification_eq_dec : EqDecision Notification.
Proof. solve_decision. Defined.

(** [RpcResponse], a frame handed to an [onResponse] callback.
    [r_id] is [Some n] exactly when [typeof response.id === 'number'];
    [r_error] is [Some e] exactly when [response.error] is truthy;
    a missing field is [None] ([undefined]). *)
Record RpcResponse := {
  r_id : option Z;
  r_error : option RpcError;
  r_result : option string;
  r_method : option string;
  r_params : option Notification
}.

Global Instance RpcResponse_eq_dec : EqDecision RpcResponse.
Proof. solve_decision. Defined.

(** The [body] of an outgoing call: [{ method, params }]. *)
Record Body := { b_method : string; b_params : list string }.

Global Instance Body_eq_dec : EqDecision Body.
Proof. solve_decision. Defined.

(** Values that are thrown, or passed to [reject] and [onError]. *)
Inductive Thrown :=
| RpcErrorValue (e : RpcError)
| CollaboratorError (msg : string)
| RpcRequestError (body : Body) (error : RpcError) (url : string)
| UrlRequiredError
| ReferenceError (name : string).

Global Instance Thrown_eq_dec : EqDecision Thrown.
Proof. solve_decision. Defined.

(** ** The request path *)

(** Outcome of an awaited call: [inl] is a rejection, [inr] the value. *)
Definition Result (A : Type) : Type := Thrown + A.

Definition await {A B} (m : Result A) (k : A -> Result B) : Result B :=
  match m with inl e => inl e | inr a => k a end.

Notation "'let_await' x ':=' m 'in' k" := (await m (fun x => k))
  (at level 10, x name, m at level 100, k at level 200, only parsing).

(** JavaScript truthiness of an optional string: [undefined] and the empty
    string are falsy. *)
Definition truthy (s : option string) : bool :=
  match s with Some EmptyString | None => false | Some _ => true end.

(** [url || chain?.rpcUrls.default.webSocket?.[0]], then
    [if (!url_) throw new UrlRequiredError()]. *)
Definition resolve_url (url chain_url : option string) : Result string :=
  let url_ := if truthy url then url else chain_url in
  match url_ with
  | Some u => if truthy url_ then inr u else inl UrlRequiredError
  | None => inl UrlRequiredError
  end.

(** [timeout_ ?? config.timeout ?? 10_000]. *)
Definition resolve_timeout (timeout_ config_timeout : option Z) : Z :=
  default (default 10000%Z config_timeout) timeout_.

Section Request.
(** The collaborators of [utils/rpc.js], as the request path sees them. *)
Variable getSocket : string -> Result Socket.
Variable webSocketAsync : Socket -> Body -> Z -> Result RpcResponse.

(** [async request({ method, params })]. *)
Definition request (url_ : string) (timeout : Z)
    (method : string) (params : list string) : Result (option string) :=
  let body := {| b_method := method; b_params := params |} in
  let_await socket := getSocket url_ in
  let_await response := webSocketAsync socket body timeout in
  match r_error response with
  | Some error => inl (RpcRequestError body error url_)
  | None => inr (r_result response)
  end.

(** The transport factory, up to the [request] it configures. *)
Definition webSocket_request (url chain_url : option string)
    (timeout_ config_timeout : option Z)
    (method : string) (params : list string) : Result (option string) :=
  let timeout := resolve_timeout timeout_ config_timeout in
  let_await url_ := resolve_url url chain_url in
  request url_ timeout method params.
End Request.

(** ** The subscription closure *)

(** What [subscribe] is called with, and the endpoint of the transport. *)
Record Config := {
  url_ : string;
  params : list string;
  onError : bool   (* whether the consumer passed an [onError] callback *)
}.

(** The callback handed to [rpc.webSocket] with a message. *)
Inductive Listener :=
| OnResponse (s : Socket)      (* the [onResponse] closure made by [onSocketCreated s] *)
| ResolveCleanup (i : nat).    (* [resolve] of the [i]-th promise made by [cleanup] *)

Global Instance Listener_eq_dec : EqDecision Listener.
Proof. solve_decision. Defined.

(** Calls that leave the closure.  [WebSocketSend] records, next to the
    arguments of [rpc.webSocket], the [readyState] the socket has when the
    call is made. *)
Inductive Effect :=
| SubscribeSocket (url : string)
| WebSocketSend (s : Socket) (rs : ReadyState) (body : Body) (l : Listener)
| UnsubscribeSocket
| OnData (p : option Notification)
| OnError (e : Thrown)
| Raise (e : Thrown).

Global Instance Effect_eq_dec : EqDecision Effect.
Proof. solve_decision. Defined.

(** One promise made by [cleanup]: its state, whether an [eth_unsubscribe]
    call holds its [resolve], and whether [unsubscribe] returned it (the
    other caller is [onResponse]). *)
Record CleanupPromise := {
  settled : option RpcResponse;
  listening : bool;
  from_unsubscribe : bool
}.

Global Instance CleanupPromise_eq_dec : EqDecision CleanupPromise.
Proof. solve_decision. Defined.

(** The variables of one [subscribe] call together with what the
    environment holds for it. *)
Record World := {
  active : bool;
  subscriptionSocket : option Socket;
  subscriptionId : option Hash;
  unsubscribeSocket : bool;               (* [true]: the registry's callback is stored *)
  opening : Promise RpcResponse Thrown;   (* the awaited [new Promise] *)
  returned : Promise unit Thrown;         (* the promise of [subscribe]; fulfilled
                                             once [cleanup] is initialised and the
                                             handle is returned *)
  registration : bool;                    (* [subscribeSocket]'s promise has settled *)
  cleanups : list CleanupPromise;         (* promises made by [cleanup], oldest first *)
  listeners : list Socket;                (* sockets [onSocketCreated] has run for *)
  sockets : gmap Socket ReadyState        (* the [readyState] of every socket object *)
}.

Definition readyState (w : World) (s : Socket) : ReadyState :=
  default CONNECTING (sockets w !! s).

Definition set_active (b : bool) (w : World) : World :=
  {| active := b; subscriptionSocket := subscriptionSocket w;
     subscriptionId := subscriptionId w; unsubscribeSocket := unsubscribeSocket w;
     opening := opening w; returned := returned w; registration := registration w;
     cleanups := cleanups w; listeners := listeners w; sockets := sockets w |}.

Definition set_subscriptionSocket (s : option Socket) (w : World) : World :=
  {| active := active w; subscriptionSocket := s;
     subscriptionId := subscriptionId w; unsubscribeSocket := unsubscribeSocket w;
     opening := opening w; returned := returned w; registration := registration w;
     cleanups := cleanups w; listeners := listeners w; sockets := sockets w |}.

Definition set_subscriptionId (i : option Hash) (w : World) : World :=
  {| active := active w; subscriptionSocket := subscriptionSocket w;
     subscriptionId := i; unsubscribeSocket := unsubscribeSocket w;
     opening := opening w; returned := returned w; registration := registration w;
     cleanups := cleanups w; listeners := listeners w; sockets := sockets w |}.

Definition set_unsubscribeSocket (b : bool) (w : World) : World :=
  {| active := active w; subscriptionSocket := subscriptionSocket w;
     subscriptionId := subscriptionId w; unsubscribeSocket := b;
     opening := opening w; returned := returned w; registration := registration w;
     cleanups := cleanups w; listeners := listeners w; sockets := sockets w |}.

Definition set_opening (p : Promise RpcResponse Thrown) (w : World) : World :=
  {| active := active w; subscriptionSocket := subscriptionSocket w;
     subscriptionId := subscriptionId w; unsubscribeSocket := unsubscribeSocket w;
     opening := p; returned := returned w; registration := registration w;
     cleanups := cleanups w; listeners := listeners w; sockets := sockets w |}.

Definition set_returned (p : Promise unit Thrown) (w : World) : World :=
  {| active := active w; subscriptionSocket := subscriptionSocket w;
     subscriptionId := subscriptionId w; unsubscribeSocket := unsubscribeSocket w;
     opening := opening w; returned := p; registration := registration w;
     cleanups := cleanups w; listeners := listeners w; sockets := sockets w |}.

Definition set_registration (b : bool) (w : World) : World :=
  {| active := active w; subscriptionSocket := subscriptionSocket w;
     subscriptionId := subscriptionId w; unsubscribeSocket := unsubscribeSocket w;
     opening := opening w; returned := returned w; registration := b;
     cleanups := cleanups w; listeners := listeners w; sockets := sockets w |}.

Definition set_cleanups (l : list CleanupPromise) (w : World) : World :=
  {| active := active w; subscriptionSocket := subscriptionSocket w;
     subscriptionId := subscriptionId w; unsubscribeSocket := unsubscribeSocket w;
     opening := opening w; returned := returned w; registration := registration w;
     cleanups := l; listeners := listeners w; sockets := sockets w |}.

Definition set_listeners (l : list Socket) (w : World) : World :=
  {| active := active w; subscriptionSocket := subscriptionSocket w;
     subscriptionId := subscriptionId w; unsubscribeSocket := unsubscribeSocket w;
     opening := opening w; returned := returned w; registration := registration w;
     cleanups := cleanups w; listeners := l; sockets := sockets w |}.

Definition set_sockets (m : gmap Socket ReadyState) (w : World) : World :=
  {| active := active w; subscriptionSocket := subscriptionSocket w;
     subscriptionId := subscriptionId w; unsubscribeSocket := unsubscribeSocket w;
     opening := opening w; returned := returned w; registration := registration w;
     cleanups := cleanups w; listeners := listeners w; sockets := m |}.

Definition eth_subscribe (ps : list string) : Body :=
  {| b_method := "eth_subscribe"; b_params := ps |}.

Definition eth_unsubscribe (sid : Hash) : Body :=
  {| b_method := "eth_unsubscribe"; b_params := [sid] |}.

Section Subscribe.
Variable cfg : Config.

(** [onError?.(error)]. *)
Definition call_onError (e : Thrown) : list Effect :=
  if onError cfg then [OnError e] else [].

(** A fresh pending promise is appended; its index is the old length. *)
Definition new_cleanup_promise (sent by_unsubscribe : bool) (w : World) : World :=
  set_cleanups
    (cleanups w ++ [{| settled := None; listening := sent;
                       from_unsubscribe := by_unsubscribe |}]) w.

(** [const cleanup = async () => { ... }].  The three early returns leave
    the executor without calling [resolve]. *)
Definition cleanup (by_unsubscribe : bool) (w : World) : World * list Effect :=
  let unregister := if unsubscribeSocket w then [UnsubscribeSocket] else [] in
  let i := length (cleanups w) in
  match subscriptionId w with
  | None => (new_cleanup_promise false by_unsubscribe w, unregister)
  | Some sid =>
    match subscriptionSocket w with
    | None => (new_cleanup_promise false by_unsubscribe w, unregister)
    | Some s =>
      if decide (readyState w s = OPEN)
      then (new_cleanup_promise true by_unsubscribe w,
            unregister ++
            [WebSocketSend s (readyState w s) (eth_unsubscribe sid) (ResolveCleanup i)])
      else (new_cleanup_promise false by_unsubscribe w, unregister)
    end
  end.

(** [onResponse(response)] of the open call.  [cleanup] is a [const]
    declared after the [await]: reading it before [subscribe] has resumed
    throws a [ReferenceError]. *)
Definition onResponse (response : RpcResponse) (w : World) : World * list Effect :=
  match r_error response with
  | Some e =>
    (set_opening (reject (RpcErrorValue e) (opening w)) w,
     call_onError (RpcErrorValue e))
  | None =>
    match r_id response with
    | Some _ =>
      let w1 := set_opening (resolve response (opening w)) w in
      let w2 := set_subscriptionId (r_result response) w1 in
      if active w2 then (w2, [])
      else if is_fulfilled (returned w2) then cleanup false w2
      else (w2, [Raise (ReferenceError "cleanup")])
    | None =>
      if decide (r_method response = Some "eth_subscription")
      then (w, [OnData (r_params response)])
      else (w, [])
    end
  end.

(** [onSocketCreated(socket)]. *)
Definition onSocketCreated (socket : Socket) (w : World) : World * list Effect :=
  let w1 := set_subscriptionSocket (Some socket) w in
  let w2 := set_subscriptionId None w1 in
  (set_listeners (socket :: listeners w2) w2,
   [WebSocketSend socket (readyState w socket) (eth_subscribe (params cfg))
                  (OnResponse socket)]).

(** The function [onSocketCreated(socket)] returns ("on socket closed"). *)
Definition onSocketClosed (socket : Socket) (w : World) : World :=
  if decide (subscriptionSocket w = Some socket)
  then set_subscriptionId None (set_subscriptionSocket None w)
  else w.

(** [.then((callback) => { unsubscribeSocket = callback })]. *)
Definition onRegistered (w : World) : World :=
  set_registration true (set_unsubscribeSocket true w).

(** [.catch((error) => { reject(error); onError?.(error) })]. *)
Definition onRegisterFailed (e : Thrown) (w : World) : World * list Effect :=
  (set_registration true (set_opening (reject e (opening w)) w), call_onError e).

(** [unsubscribe()] of the returned handle. *)
Definition unsubscribe (w : World) : World * list Effect :=
  cleanup true (set_active false w).

(** [onResponse: resolve] of an [eth_unsubscribe] call. *)
Definition resolve_cleanup (i : nat) (response : RpcResponse) (w : World) : World :=
  match cleanups w !! i with
  | Some c =>
    match settled c with
    | None =>
      set_cleanups
        (<[i := {| settled := Some response; listening := listening c;
                   from_unsubscribe := from_unsubscribe c |}]> (cleanups w)) w
    | Some _ => w
    end
  | None => w
  end.

(** The part of [subscribe] behind the [await]: it runs, as a microtask,
    as soon as the awaited promise has settled, and settles the promise of
    [subscribe] itself (with the handle, or with the rejection). *)
Definition resume (w : World) : World :=
  match returned w, opening w with
  | Pending, Fulfilled _ => set_returned (Fulfilled tt) w
  | Pending, Rejected e => set_returned (Rejected e) w
  | _, _ => w
  end.

(** The part of [subscribe] before the [await]. *)
Definition subscribe : World * list Effect :=
  ({| active := true; subscriptionSocket := None; subscriptionId := None;
      unsubscribeSocket := false; opening := Pending; returned := Pending;
      registration := false; cleanups := []; listeners := []; sockets := ∅ |},
   [SubscribeSocket (url_ cfg)]).

(** ** The environment *)

Inductive Event :=
| SocketCreated (s : Socket)                 (* the registry runs [onSocketCreated s] *)
| Registered                                 (* [subscribeSocket] fulfils with its callback *)
| RegisterFailed (e : Thrown)                (* [subscribeSocket] rejects *)
| Response (s : Socket) (r : RpcResponse)    (* a frame for the open call made on [s] *)
| SocketClosed (s : Socket)                  (* the registry runs the close handler of [s] *)
| ReadyStateChange (s : Socket) (rs : ReadyState)
| Unsubscribe                                (* the consumer calls [unsubscribe()] *)
| TeardownResponse (i : nat) (r : RpcResponse). (* the reply to the teardown of promise [i] *)

(** An event can occur only if the closure it runs exists: a frame or a
    close needs [onSocketCreated] to have run for that socket, the consumer
    needs the handle, a teardown reply needs the teardown call, and the
    registration settles once. *)
Definition enabled (w : World) (e : Event) : bool :=
  match e with
  | SocketCreated _ => true
  | Registered => negb (registration w)
  | RegisterFailed _ => negb (registration w)
  | Response s _ => bool_decide (s ∈ listeners w)
  | SocketClosed s => bool_decide (s ∈ listeners w)
  | ReadyStateChange _ _ => true
  | Unsubscribe => is_fulfilled (returned w)
  | TeardownResponse i _ =>
    match cleanups w !! i with Some c => listening c | None => false end
  end.

Definition handle (e : Event) (w : World) : World * list Effect :=
  match e with
  | SocketCreated s => onSocketCreated s w
  | Registered => (onRegistered w, [])
  | RegisterFailed err => onRegisterFailed err w
  | Response _ r => onResponse r w
  | SocketClosed s => (onSocketClosed s w, [])
  | ReadyStateChange s rs => (set_sockets (<[s := rs]> (sockets w)) w, [])
  | Unsubscribe => unsubscribe w
  | TeardownResponse i r => (resolve_cleanup i r w, [])
  end.

(** One task of the event loop: the callback, then the microtasks. *)
Definition step (w : World) (e : Event) : World * list Effect :=
  if enabled w e
  then let (w', fx) := handle e w in (resume w', fx)
  else (w, []).

Fixpoint run (w : World) (evs : list Event) : World * list Effect :=
  match evs with
  | [] => (w, [])
  | e :: evs' =>
    let (w1, fx1) := step w e in
    let (w2, fx2) := run w1 evs' in
    (w2, fx1 ++ fx2)
  end.

(** The subscription after [subscribe] was called and [evs] happened. *)
Definition world_after (evs : list Event) : World := fst (run (fst subscribe) evs).

(** Every call made on the way, the registration included. *)
Definition trace (evs : list Event) : list Effect :=
  snd subscribe ++ snd (run (fst subscribe) evs).
End Subscribe.

(** ** Observations on a trace *)

Definition is_teardown (fx : Effect) : bool :=
  match fx with
  | WebSocketSend _ _ body _ => String.eqb (b_method body) "eth_unsubscribe"
  | _ => false
  end.

Definition teardowns (fxs : list Effect) : list Effect := filter is_teardown fxs.

(** A frame that acknowledges an open call: no error and a numeric id. *)
Definition is_ack (r : RpcResponse) : bool :=
  match r_error r, r_id r with None, Some _ => true | _, _ => false end.

Definition ok (sid : Hash) (n : Z) : RpcResponse :=
  {| r_id := Some n; r_error := None; r_result := Some sid;
     r_method := None; r_params := None |}.

Definition failed (n : Z) (e : RpcError) : RpcResponse :=
  {| r_id := Some n; r_error := Some e; r_result := None;
     r_method := None; r_params := None |}.

Definition notification (n : Notification) : RpcResponse :=
  {| r_id := None; r_error := None; r_result := None;
     r_method := Some "eth_subscription"; r_params := Some n |}.

(** ** Invariant of the closure *)

(** [active] is only ever cleared through the handle, the handle exists
    only after [subscribe] has resumed, and [subscribe] stays suspended
    exactly as long as the awaited promise is pending. *)
Definition closure_inv (w : World) : Prop :=
  (active w = false -> returned w = Fulfilled tt) /\
  (returned w = Pending -> opening w = Pending).

(** ** Counting runs of [cleanup] *)

(** [cleanup] runs once for every [unsubscribe()] call and once for every
    acknowledgement of an open call that arrives after [unsubscribe()] was
    called. *)
Fixpoint cleanup_calls (unsubscribed : bool) (evs : list Event) : nat :=
  match evs with
  | [] => 0
  | Unsubscribe :: evs' => S (cleanup_calls true evs')
  | Response _ r :: evs' =>
    (if unsubscribed && is_ack r then 1 else 0) + cleanup_calls unsubscribed evs'
  | _ :: evs' => cleanup_calls unsubscribed evs'
  end.

(** No event of [evs] is an acknowledgement of an open call. *)
Definition no_ack (evs : list Event) : bool :=
  forallb (fun e => match e with Response _ r => negb (is_ack r) | _ => true end) evs.

(** No event of [evs] is the reply to the teardown call of promise [i]. *)
Definition no_reply_to (i : nat) (evs : list Event) : bool :=
  forallb (fun e => match e with
                    | TeardownResponse j _ => negb (Nat.eqb j i)
                    | _ => true
                    end) evs.

(** Modelled from the spec: the send primitive of the socket collaborator
    ([utils/rpc.js] and the socket itself are not part of the sources),
    which "fails with ConnectionClosed if not open". *)
Definition send_fails (rs : ReadyState) : bool := bool_decide (rs <> OPEN).

(** ** Scenarios *)

Definition demo : Config :=
  {| url_ := "wss://node"; params := ["newHeads"]; onError := true |}.

(** A subscription that is open on socket 1. *)
Definition opened : list Event :=
  [ReadyStateChange 1 OPEN; SocketCreated 1; Registered; Response 1 (ok "0xa" 1)].

(** The socket drops and socket 2 replaces it: the open call is repeated on
    socket 2 and its reply is outstanding. *)
Definition reopening : list Event :=
  opened ++ [ReadyStateChange 1 CLOSED; SocketClosed 1;
             ReadyStateChange 2 OPEN; SocketCreated 2].

Definition double_unsubscribe : list Event := opened ++ [Unsubscribe; Unsubscribe].

(** The server refuses the open call. *)
Definition denied : RpcError := {| code := (-32000)%Z; message := "denied" |}.

Definition awaiting_first_reply : list Event :=
  [ReadyStateChange 1 OPEN; SocketCreated 1].

Definition open_call_fails : list Event :=
  awaiting_first_reply ++ [Response 1 (failed 1 denied)].

Definition registration_fails : list Event :=
  [RegisterFailed (CollaboratorError "connection refused")].

(** The reply of the server to an [eth_unsubscribe] call. *)
Definition unsubscribed (n : Z) : RpcResponse :=
  {| r_id := Some n; r_error := None; r_result := Some "true";
     r_method := None; r_params := None |}.

(** The consumer unsubscribes while the reply of the repeated open call is
    outstanding. *)
Definition cancelled_while_reopening : list Event := reopening ++ [Unsubscribe].

(** The acknowledgement then arrives, the teardown it triggers is answered,
    and a reply is addressed to the promise [unsubscribe()] had returned. *)
Definition deferred_teardown_answered : list Event :=
  cancelled_while_reopening ++
  [Response 2 (ok "0xb" 2); TeardownResponse 1 (unsubscribed 3);
   TeardownResponse 0 (unsubscribed 3)].

(** Socket 2 replaced socket 1 and the subscription is open again, with a
    new identifier, when the close of socket 1 is finally reported. *)
Definition rebound : list Event :=
  opened ++ [ReadyStateChange 2 OPEN; SocketCreated 2; Response 2 (ok "0xb" 2)].

(** Socket 1 is created and its open call is still unanswered when the
    registry creates socket 2; the open call is repeated on socket 2. *)
Definition second_socket_pending : list Event :=
  [ReadyStateChange 1 OPEN; SocketCreated 1; Registered; ReadyStateChange 2 OPEN].

Definition reconnected_before_reply : list Event :=
  second_socket_pending ++ [SocketCreated 2].

(** The acknowledgement of the open call made on socket 1, arriving late. *)
Definition stale_ack : RpcResponse := ok "0xstale" 1.

(** The subscription is open and its socket has begun to close. *)
Definition open_then_closing : list Event := opened ++ [ReadyStateChange 1 CLOSING].

(** A mock server for [request]: one socket, one canned reply. *)
Definition mock_getSocket (url : string) : Result Socket := inr 1.

Definition mock_reply (response : RpcResponse) (socket : Socket) (body : Body)
    (timeout : Z) : Result RpcResponse := inr response.

Definition reverted : RpcError := {| code := (-32000)%Z; message := "reverted" |}.

Definition new_head : Notification := {| subscription := "0xb"; payload := "0x1b4" |}.

(** The consumer unsubscribes while the reply of the repeated open call is
    outstanding, and socket 2 starts closing before that reply is handled. *)
Definition cancelled_then_closing : list Event :=
  reopening ++ [Unsubscribe; ReadyStateChange 2 CLOSING].

(** ** The transport factory *)

(** [WebSocketTransportConfig]: every option may be missing. *)
Record WebSocketTransportConfig := {
  key : option string;
  name : option string;
  retryCount : option Z;
  retryDelay : option Z;
  timeout : option Z
}.

(** What [webSocket(url, config)({ chain, retryCount, timeout })] hands to
    [createTransport], together with the endpoint [url_] that [request],
    [getSocket] and [subscribe] close over. *)
Record TransportSettings := {
  t_key : string;
  t_name : string;
  t_retryCount : option Z;
  t_retryDelay : option Z;
  t_timeout : Z;
  t_type : string;
  t_url : string
}.

(** [webSocket]: the defaults of the destructuring, the two [??] chains,
    and the check of the endpoint. *)
Definition webSocket (url : option string) (config : WebSocketTransportConfig)
    (chain_url : option string) (retryCount_ timeout_ : option Z)
    : Result TransportSettings :=
  let key_ := default "webSocket" (key config) in
  let name_ := default "WebSocket JSON-RPC" (name config) in
  let retryCount' := match retryCount config with
                     | Some n => Some n
                     | None => retryCount_
                     end in
  let timeout' := resolve_timeout timeout_ (timeout config) in
  let_await endpoint := resolve_url url chain_url in
  inr {| t_key := key_; t_name := name_; t_retryCount := retryCount';
         t_retryDelay := retryDelay config; t_timeout := timeout';
         t_type := "webSocket"; t_url := endpoint |}.

(** ** Further observations on runs *)

(** The socket of an [eth_subscribe] call. *)
Definition open_call_socket (fx : Effect) : option Socket :=
  match fx with
  | WebSocketSend s _ body _ =>
    if String.eqb (b_method body) "eth_subscribe" then Some s else None
  | _ => None
  end.

Definition created_socket (e : Event) : option Socket :=
  match e with SocketCreated s => Some s | _ => None end.

Definition is_registration (fx : Effect) : bool :=
  match fx with SubscribeSocket _ => true | _ => false end.

(** The consumer never calls [unsubscribe()] in [evs]. *)
Definition never_unsubscribes (evs : list Event) : bool :=
  forallb (fun e => match e with Unsubscribe => false | _ => true end) evs.

(** No socket is created in [evs]. *)
Definition no_creation (evs : list Event) : bool :=
  forallb (fun e => match e with SocketCreated _ => false | _ => true end) evs.

(** Some acknowledgement among [evs] supplied the identifier [sid]. *)
Definition acked (evs : list Event) (sid : Hash) : Prop :=
  exists s r, Response s r ∈ evs /\ is_ack r = true /\ r_result r = Some sid.

(** The argument of an [onData] call. *)
Definition data_of (fx : Effect) : option (option Notification) :=
  match fx with OnData p => Some p | _ => None end.

(** A frame that is a push notification: no error, no numeric id, and the
    method [eth_subscription]. *)
Definition is_notification (r : RpcResponse) : bool :=
  match r_error r, r_id r with
  | None, None => bool_decide (r_method r = Some "eth_subscription")
  | _, _ => false
  end.

(** The [params] of the push notifications among [evs] that arrive on a
    socket for which [onSocketCreated] has run ([created] lists the sockets
    it has run for so far), in the order of arrival. *)
Fixpoint notifications (created : list Socket) (evs : list Event)
    : list (option Notification) :=
  match evs with
  | [] => []
  | SocketCreated s :: evs' => notifications (s :: created) evs'
  | Response s r :: evs' =>
    (if bool_decide (s ∈ created) && is_notification r then [r_params r] else [])
    ++ notifications created evs'
  | _ :: evs' => notifications created evs'
  end.

Definition is_reference_error (fx : Effect) : bool :=
  match fx with Raise (ReferenceError _) => true | _ => false end.

Definition is_unregister (fx : Effect) : bool :=
  match fx with UnsubscribeSocket => true | _ => false end.

Definition is_onError (fx : Effect) : bool :=
  match fx with OnError _ => true | _ => false end.

(** A configuration that sets every option, and one that sets none. *)
Definition full_config : WebSocketTransportConfig :=
  {| key := Some "ws"; name := Some "My node"; retryCount := Some 5%Z;
     retryDelay := Some 150%Z; timeout := Some 2000%Z |}.

Definition empty_config : WebSocketTransportConfig :=
  {| key := None; name := None; retryCount := None; retryDelay := None;
     timeout := None |}.

(** Collaborators of [request] that fail. *)
Definition failing_getSocket (url : string) : Result Socket :=
  inl (CollaboratorError "connection refused").

Definition timing_out (socket : Socket) (body : Body) (timeout : Z)
    : Result RpcResponse := inl (CollaboratorError "timeout").

(** ** The event loop *)

Section Run.
Variable cfg : Config.

Lemma run_app (w : World) (evs1 evs2 : list Event) :
  run cfg w (evs1 ++ evs2) =
  (fst (run cfg (fst (run cfg w evs1)) evs2),
   snd (run cfg w evs1) ++ snd (run cfg (fst (run cfg w evs1)) evs2)).
Proof.
  revert w. induction evs1 as [|e evs1 IH]; intros w; simpl.
  - by destruct (run cfg w evs2).
  - destruct (step cfg w e) as [w1 fx1]. rewrite IH.
    destruct (run cfg w1 evs1) as [w2 fx2]; simpl.
    by rewrite (assoc_L (++)).
Qed.

Lemma run_cons (w : World) (e : Event) (evs : list Event) :
  run cfg w (e :: evs) =
  (fst (run cfg (fst (step cfg w e)) evs),
   snd (step cfg w e) ++ snd (run cfg (fst (step cfg w e)) evs)).
Proof.
  simpl. destruct (step cfg w e) as [w1 fx1]; simpl.
  by destruct (run cfg w1 evs).
Qed.

Lemma world_after_app (evs1 evs2 : list Event) :
  world_after cfg (evs1 ++ evs2) = fst (run cfg (world_after cfg evs1) evs2).
Proof. unfold world_after. by rewrite run_app. Qed.

Lemma world_after_snoc (evs : list Event) (e : Event) :
  world_after cfg (evs ++ [e]) = fst (step cfg (world_after cfg evs) e).
Proof.
  rewrite world_after_app. simpl.
  by destruct (step cfg (world_after cfg evs) e).
Qed.

(** A property every task preserves holds after any run. *)
Lemma run_preserves (P : World -> Prop) :
  (forall w e, P w -> P (fst (step cfg w e))) ->
  forall evs w, P w -> P (fst (run cfg w evs)).
Proof.
  intros Hstep evs. induction evs as [|e evs IH]; intros w Hw; [done|].
  rewrite run_cons. simpl. apply IH, Hstep, Hw.
Qed.

Lemma cleanup_fields (by_unsubscribe : bool) (w : World) :
  let w' := fst (cleanup by_unsubscribe w) in
  active w' = active w /\ subscriptionSocket w' = subscriptionSocket w /\
  subscriptionId w' = subscriptionId w /\ unsubscribeSocket w' = unsubscribeSocket w /\
  opening w' = opening w /\ returned w' = returned w /\
  registration w' = registration w /\ listeners w' = listeners w /\
  sockets w' = sockets w /\
  exists sent, cleanups w' =
    cleanups w ++ [{| settled := None; listening := sent;
                      from_unsubscribe := by_unsubscribe |}].
Proof.
  unfold cleanup.
  destruct (subscriptionId w) eqn:Hid; [destruct (subscriptionSocket w) eqn:Hs;
    [destruct (decide _)|]|]; simpl; repeat (split; [done|]); eauto.
Qed.

Lemma resume_fields (w : World) :
  let w' := resume w in
  active w' = active w /\ subscriptionSocket w' = subscriptionSocket w /\
  subscriptionId w' = subscriptionId w /\ unsubscribeSocket w' = unsubscribeSocket w /\
  opening w' = opening w /\ registration w' = registration w /\
  listeners w' = listeners w /\ sockets w' = sockets w /\
  cleanups w' = cleanups w.
Proof.
  unfold resume.
  destruct (returned w) eqn:Hr; [destruct (opening w) eqn:Ho|..]; simpl; done.
Qed.

Lemma resume_returned (w : World) :
  returned (resume w) =
  match returned w, opening w with
  | Pending, Fulfilled _ => Fulfilled tt
  | Pending, Rejected e => Rejected e
  | p, _ => p
  end.
Proof.
  unfold resume.
  destruct (returned w) eqn:Hr; [destruct (opening w) eqn:Ho|..]; simpl; done.
Qed.

(** What a callback does to the variables [subscribe] suspends on. *)
Lemma handle_returned (e : Event) (w : World) :
  returned (fst (handle cfg e w)) = returned w.
Proof.
  destruct e; simpl; try done.
  - unfold onResponse, cleanup. repeat case_match; done.
  - unfold onSocketClosed. by case_match.
  - unfold unsubscribe, cleanup. repeat case_match; done.
  - unfold resolve_cleanup. repeat case_match; done.
Qed.

Lemma handle_active (e : Event) (w : World) :
  active (fst (handle cfg e w)) =
  match e with Unsubscribe => false | _ => active w end.
Proof.
  destruct e; simpl; try done.
  - unfold onResponse, cleanup. repeat case_match; done.
  - unfold onSocketClosed. by case_match.
  - unfold unsubscribe, cleanup. repeat case_match; done.
  - unfold resolve_cleanup. repeat case_match; done.
Qed.

Lemma handle_opening (e : Event) (w : World) :
  opening (fst (handle cfg e w)) =
  match e with
  | Response _ r =>
    match r_error r, r_id r with
    | Some err, _ => reject (RpcErrorValue err) (opening w)
    | None, Some _ => resolve r (opening w)
    | None, None => opening w
    end
  | RegisterFailed err => reject err (opening w)
  | _ => opening w
  end.
Proof.
  destruct e; simpl; try done.
  - unfold onResponse, cleanup. repeat case_match; done.
  - unfold onSocketClosed. by case_match.
  - unfold unsubscribe, cleanup. repeat case_match; done.
  - unfold resolve_cleanup. repeat case_match; done.
Qed.

Lemma step_returned (w : World) (e : Event) :
  returned (fst (step cfg w e)) =
  if enabled w e
  then match returned w, opening (fst (handle cfg e w)) with
       | Pending, Fulfilled _ => Fulfilled tt
       | Pending, Rejected err => Rejected err
       | p, _ => p
       end
  else returned w.
Proof.
  unfold step. destruct (enabled w e); [|done].
  destruct (handle cfg e w) as [w' fx] eqn:Hh; simpl.
  rewrite resume_returned.
  change w' with (fst (w', fx)). by rewrite <- Hh, handle_returned.
Qed.

Lemma step_active (w : World) (e : Event) :
  active (fst (step cfg w e)) =
  if enabled w e
  then match e with Unsubscribe => false | _ => active w end
  else active w.
Proof.
  unfold step. destruct (enabled w e); [|done].
  destruct (handle cfg e w) as [w' fx] eqn:Hh; simpl.
  destruct (resume_fields w') as (-> & _).
  change w' with (fst (w', fx)). by rewrite <- Hh, handle_active.
Qed.

Lemma step_opening (w : World) (e : Event) :
  opening (fst (step cfg w e)) =
  if enabled w e then opening (fst (handle cfg e w)) else opening w.
Proof.
  unfold step. destruct (enabled w e); [|done].
  destruct (handle cfg e w) as [w' fx] eqn:Hh; simpl.
  by destruct (resume_fields w') as (_ & _ & _ & _ & -> & _).
Qed.

Lemma step_closure_inv (w : World) (e : Event) :
  closure_inv w -> closure_inv (fst (step cfg w e)).
Proof.
  intros [Hact Hret]. unfold closure_inv.
  rewrite step_returned, step_active, step_opening.
  destruct (enabled w e) eqn:Hen; [|done].
  split.
  - destruct e; simpl in *;
      try (intros Ha; rewrite (Hact Ha); done).
    intros _. by destruct (returned w) as [|[]|].
  - destruct (returned w) eqn:Hr; [|done..].
    by destruct (opening (handle cfg e w).1).
Qed.

Lemma closure_inv_init : closure_inv (fst (subscribe cfg)).
Proof. split; simpl; [done|done]. Qed.

Lemma closure_inv_run (evs : list Event) (w : World) :
  closure_inv w -> closure_inv (fst (run cfg w evs)).
Proof. apply run_preserves. intros; by apply step_closure_inv. Qed.

Lemma closure_inv_world_after (evs : list Event) :
  closure_inv (world_after cfg evs).
Proof. apply closure_inv_run, closure_inv_init. Qed.

(** A settled [subscribe] stays as it is. *)
Lemma step_returned_stable (w : World) (e : Event) :
  returned w <> Pending -> returned (fst (step cfg w e)) = returned w.
Proof.
  intros Hr. rewrite step_returned.
  destruct (enabled w e); [|done]. by destruct (returned w).
Qed.

Lemma run_returned_stable (evs : list Event) (w : World) :
  returned w <> Pending -> returned (fst (run cfg w evs)) = returned w.
Proof.
  revert w. induction evs as [|e evs IH]; intros w Hr; [done|].
  rewrite run_cons. simpl.
  rewrite IH; rewrite step_returned_stable; done.
Qed.

(** While [subscribe] is suspended it has been suspended all along. *)
Lemma pending_prefix (evs : list Event) (k : nat) :
  returned (world_after cfg evs) = Pending ->
  returned (world_after cfg (take k evs)) = Pending.
Proof.
  intros Hp. destruct (returned (world_after cfg (take k evs))) eqn:Hk; [done|..];
    rewrite <- (take_drop k evs), world_after_app in Hp;
    rewrite run_returned_stable in Hp; congruence.
Qed.

(** Once cleared, [active] stays cleared. *)
Lemma run_inactive_stable (evs : list Event) (w : World) :
  active w = false -> active (fst (run cfg w evs)) = false.
Proof.
  apply (run_preserves (fun w => active w = false)).
  intros w' e Ha. rewrite step_active.
  destruct (enabled w' e); [|done]. by destruct e.
Qed.

(** *** Teardown messages of one task *)

Lemma cleanup_teardowns_le (by_unsubscribe : bool) (w : World) :
  length (teardowns (snd (cleanup by_unsubscribe w))) <= 1.
Proof.
  unfold cleanup, teardowns. repeat case_match; simpl; lia.
Qed.

Lemma step_teardowns_le (w : World) (e : Event) :
  length (teardowns (snd (step cfg w e))) <=
  match e with
  | Unsubscribe => 1
  | Response _ r => if negb (active w) && is_ack r then 1 else 0
  | _ => 0
  end.
Proof.
  unfold step. destruct (enabled w e); [|destruct e; simpl; repeat case_match; lia].
  destruct (handle cfg e w) as [w' fx] eqn:Hh; simpl.
  destruct e; simpl in Hh.
  - injection Hh as <- <-. simpl. lia.
  - injection Hh as <- <-. simpl. lia.
  - unfold onRegisterFailed, call_onError in Hh. injection Hh as <- <-.
    unfold teardowns. case_match; simpl; lia.
  - unfold onResponse, is_ack, call_onError in *.
    destruct (r_error r);
      [injection Hh as <- <-; unfold teardowns; repeat case_match; simpl; lia|].
    destruct (r_id r).
    + simpl in Hh. destruct (active w); [injection Hh as <- <-; simpl; lia|].
      simpl. case_match; [|injection Hh as <- <-; simpl; lia].
      replace fx with (snd (cleanup false
        (set_subscriptionId (r_result r) (set_opening (resolve r (opening w)) w))))
        by (by rewrite Hh).
      apply cleanup_teardowns_le.
    + case_match; injection Hh as <- <-; unfold teardowns; simpl; lia.
  - injection Hh as <- <-. simpl. lia.
  - injection Hh as <- <-. simpl. lia.
  - unfold unsubscribe in Hh.
    replace fx with (snd (cleanup true (set_active false w))) by (by rewrite Hh).
    apply cleanup_teardowns_le.
  - injection Hh as <- <-. simpl. lia.
Qed.

Lemma cleanup_teardowns_length (by_unsubscribe : bool) (w : World) :
  length (teardowns (snd (cleanup by_unsubscribe w))) =
  match subscriptionId w, subscriptionSocket w with
  | Some _, Some s => if decide (readyState w s = OPEN) then 1 else 0
  | _, _ => 0
  end.
Proof.
  unfold cleanup, teardowns. repeat case_match; simpl; done.
Qed.

Lemma resume_settled (w : World) : returned w <> Pending -> resume w = w.
Proof. unfold resume. by destruct (returned w). Qed.

Lemma step_unsubscribe (w : World) :
  step cfg w Unsubscribe =
  if is_fulfilled (returned w) then cleanup true (set_active false w) else (w, []).
Proof.
  unfold step. simpl. destruct (is_fulfilled (returned w)) eqn:Hr; [|done].
  unfold unsubscribe.
  destruct (cleanup true (set_active false w)) as [w' fx] eqn:Hc.
  rewrite resume_settled; [done|].
  pose proof (cleanup_fields true (set_active false w)) as Hf. rewrite Hc in Hf.
  simpl in Hf. destruct Hf as (_ & _ & _ & _ & _ & -> & _).
  by destruct (returned w).
Qed.

Lemma cleanup_calls_mono (evs : list Event) :
  cleanup_calls false evs <= cleanup_calls true evs.
Proof.
  induction evs as [|e evs IH]; simpl; [lia|].
  destruct e; simpl; try lia.
Qed.

Lemma run_teardowns_le (evs : list Event) (w : World) :
  length (teardowns (snd (run cfg w evs))) <= cleanup_calls (negb (active w)) evs.
Proof.
  revert w. induction evs as [|e evs IH]; intros w; [simpl; lia|].
  rewrite run_cons. simpl snd. unfold teardowns in *.
  rewrite filter_app, length_app.
  pose proof (step_teardowns_le w e) as Hs. unfold teardowns in Hs.
  pose proof (IH (fst (step cfg w e))) as Hr.
  rewrite step_active in Hr.
  pose proof (cleanup_calls_mono evs) as Hm.
  destruct (enabled w e), e; simpl in *;
    destruct (active w); simpl in *; lia.
Qed.

Lemma cleanup_teardowns_open (by_unsubscribe : bool) (w : World) (sid : Hash) (s : Socket) :
  subscriptionId w = Some sid -> subscriptionSocket w = Some s ->
  readyState w s = OPEN ->
  teardowns (snd (cleanup by_unsubscribe w)) =
  [WebSocketSend s OPEN (eth_unsubscribe sid) (ResolveCleanup (length (cleanups w)))].
Proof.
  intros Hid Hs Ho. unfold cleanup, teardowns. rewrite Hid, Hs, Ho.
  rewrite decide_True by done. simpl. by destruct (unsubscribeSocket w).
Qed.

Lemma cleanup_teardowns_none (by_unsubscribe : bool) (w : World) :
  subscriptionId w = None \/ subscriptionSocket w = None \/
  (exists s, subscriptionSocket w = Some s /\ readyState w s <> OPEN) ->
  teardowns (snd (cleanup by_unsubscribe w)) = [] /\
  exists c, cleanups (fst (cleanup by_unsubscribe w)) = cleanups w ++ [c] /\
            listening c = false /\ settled c = None /\
            from_unsubscribe c = by_unsubscribe.
Proof.
  intros H. unfold cleanup, teardowns.
  destruct (subscriptionId w) as [sid|] eqn:Hid;
    [destruct (subscriptionSocket w) as [s|] eqn:Hs; [destruct (decide _) as [Ho|Ho]|]|];
    simpl; try (split; [by destruct (unsubscribeSocket w)|eauto]).
  destruct H as [H|[H|(s' & H & Hne)]]; try done. congruence.
Qed.

(** The acknowledgement of an open call, handled after [unsubscribe()]. *)
Lemma step_ack_inactive (w : World) (s : Socket) (r : RpcResponse) :
  enabled w (Response s r) = true -> is_ack r = true ->
  active w = false -> returned w = Fulfilled tt ->
  snd (step cfg w (Response s r)) =
  snd (cleanup false
         (set_subscriptionId (r_result r) (set_opening (resolve r (opening w)) w))).
Proof.
  intros Hen Hack Ha Hr. unfold step. rewrite Hen. simpl.
  unfold onResponse. unfold is_ack in Hack.
  destruct (r_error r); [done|]. destruct (r_id r); [|done].
  simpl. rewrite Ha, Hr. simpl.
  by destruct (cleanup false _).
Qed.


(** *** The promises made by [cleanup] *)

Lemma handle_cleanups (e : Event) (w : World) :
  match e with
  | TeardownResponse i r =>
    cleanups (fst (handle cfg e w)) = cleanups (resolve_cleanup i r w)
  | _ => exists l, cleanups (fst (handle cfg e w)) = cleanups w ++ l
  end.
Proof.
  destruct e; simpl; try done; try (by exists []; rewrite app_nil_r).
  - unfold onResponse. repeat case_match; simpl;
      try (by exists []; rewrite app_nil_r).
    match goal with |- context [cleanup ?b ?w0] =>
      destruct (cleanup_fields b w0) as (_ & _ & _ & _ & _ & _ & _ & _ & _ & sent & ->)
    end. simpl. eauto.
  - unfold onSocketClosed. case_match; simpl; by exists []; rewrite app_nil_r.
  - unfold unsubscribe.
    destruct (cleanup_fields true (set_active false w))
      as (_ & _ & _ & _ & _ & _ & _ & _ & _ & sent & ->). simpl. eauto.
Qed.

Lemma step_cleanups (w : World) (e : Event) :
  cleanups (fst (step cfg w e)) =
  if enabled w e then cleanups (fst (handle cfg e w)) else cleanups w.
Proof.
  unfold step. destruct (enabled w e); [|done].
  destruct (handle cfg e w) as [w' fx]; simpl.
  by destruct (resume_fields w') as (_ & _ & _ & _ & _ & _ & _ & _ & ->).
Qed.

(** A promise whose [resolve] no call holds is never touched again. *)
Lemma step_unheld_promise (w : World) (e : Event) (i : nat) (c : CleanupPromise) :
  cleanups w !! i = Some c -> listening c = false ->
  cleanups (fst (step cfg w e)) !! i = Some c.
Proof.
  intros Hi Hl. rewrite step_cleanups.
  destruct (enabled w e) eqn:Hen; [|done].
  pose proof (handle_cleanups e w) as Hc.
  destruct e as [s| |err|s r|s|s rs| |j r];
    [destruct Hc as [l Hc]; rewrite Hc; by apply lookup_app_l_Some .. |].
  rewrite Hc. unfold resolve_cleanup. simpl in Hen.
  destruct (cleanups w !! j) as [c0|] eqn:Hj; [|done].
  destruct (settled c0); [done|]. simpl.
  rewrite list_lookup_insert_ne; [done|]. intros ->. congruence.
Qed.

Lemma run_unheld_promise (evs : list Event) (w : World) (i : nat) (c : CleanupPromise) :
  cleanups w !! i = Some c -> listening c = false ->
  cleanups (fst (run cfg w evs)) !! i = Some c.
Proof.
  intros Hi Hl.
  apply (run_preserves (fun w => cleanups w !! i = Some c)); [|done].
  intros w' e Hw'. by apply step_unheld_promise.
Qed.

(** A promise is not touched by anything but the reply to its own call. *)
Lemma step_promise_unanswered (w : World) (e : Event) (i : nat) (c : CleanupPromise) :
  cleanups w !! i = Some c ->
  match e with TeardownResponse j _ => j <> i | _ => True end ->
  cleanups (fst (step cfg w e)) !! i = Some c.
Proof.
  intros Hi Hne. rewrite step_cleanups.
  destruct (enabled w e) eqn:Hen; [|done].
  pose proof (handle_cleanups e w) as Hc.
  destruct e as [s| |err|s r|s|s rs| |j r];
    [destruct Hc as [l Hc]; rewrite Hc; by apply lookup_app_l_Some .. |].
  rewrite Hc. unfold resolve_cleanup.
  destruct (cleanups w !! j) as [c0|] eqn:Hj; [|done].
  destruct (settled c0); [done|]. simpl.
  by rewrite list_lookup_insert_ne.
Qed.

Lemma run_promise_unanswered (evs : list Event) (w : World) (i : nat) (c : CleanupPromise) :
  cleanups w !! i = Some c -> no_reply_to i evs = true ->
  cleanups (fst (run cfg w evs)) !! i = Some c.
Proof.
  revert w. induction evs as [|e evs IH]; intros w Hi Hno; [done|].
  rewrite run_cons. simpl. simpl in Hno. apply andb_prop in Hno as [He Hno].
  apply IH; [|done]. apply step_promise_unanswered; [done|].
  destruct e; try done. apply negb_true_iff in He. by apply Nat.eqb_neq in He.
Qed.

Lemma step_teardown_response (w : World) (i : nat) (r : RpcResponse) (c : CleanupPromise) :
  cleanups w !! i = Some c -> listening c = true -> settled c = None ->
  cleanups (fst (step cfg w (TeardownResponse i r))) !! i =
  Some {| settled := Some r; listening := true; from_unsubscribe := from_unsubscribe c |}.
Proof.
  intros Hi Hl Hs. rewrite step_cleanups. simpl. rewrite Hi, Hl.
  unfold resolve_cleanup. rewrite Hi, Hs. simpl. rewrite Hl.
  apply list_lookup_insert_eq. by eapply lookup_lt_Some.
Qed.


(** *** The calls one task makes *)

Lemma cleanup_effects (by_unsubscribe : bool) (w : World) (fx : Effect) :
  fx ∈ snd (cleanup by_unsubscribe w) ->
  fx = UnsubscribeSocket \/
  exists s sid,
    subscriptionSocket w = Some s /\ subscriptionId w = Some sid /\
    readyState w s = OPEN /\
    fx = WebSocketSend s (readyState w s) (eth_unsubscribe sid)
           (ResolveCleanup (length (cleanups w))).
Proof.
  unfold cleanup.
  destruct (subscriptionId w) as [sid|] eqn:Hid;
    [destruct (subscriptionSocket w) as [s|] eqn:Hs; [destruct (decide _) as [Ho|Ho]|]|];
    destruct (unsubscribeSocket w); simpl;
    rewrite ?elem_of_cons, ?elem_of_nil; intros H;
    repeat (destruct H as [H|H]); try done; eauto 10.
Qed.

Lemma step_effects (w : World) (e : Event) (fx : Effect) :
  fx ∈ snd (step cfg w e) ->
  enabled w e = true /\
  match e with
  | SocketCreated s =>
    fx = WebSocketSend s (readyState w s) (eth_subscribe (params cfg)) (OnResponse s)
  | RegisterFailed err => onError cfg = true /\ fx = OnError err
  | Response _ r =>
    match r_error r, r_id r with
    | Some err, _ => onError cfg = true /\ fx = OnError (RpcErrorValue err)
    | None, Some _ =>
      active w = false /\
      (is_fulfilled (returned w) = false /\ fx = Raise (ReferenceError "cleanup") \/
       fx ∈ snd (cleanup false
                   (set_subscriptionId (r_result r)
                      (set_opening (resolve r (opening w)) w))))
    | None, None => r_method r = Some "eth_subscription" /\ fx = OnData (r_params r)
    end
  | Unsubscribe => fx ∈ snd (cleanup true (set_active false w))
  | _ => False
  end.
Proof.
  unfold step. destruct (enabled w e) eqn:Hen; [|by rewrite elem_of_nil].
  destruct (handle cfg e w) as [w' fx'] eqn:Hh. simpl. intros Hfx.
  split; [done|].
  destruct e as [s| |err|s r|s|s rs| |j r]; simpl in Hh.
  - injection Hh as <- <-. by apply list_elem_of_singleton in Hfx.
  - injection Hh as <- <-. by apply elem_of_nil in Hfx.
  - unfold onRegisterFailed, call_onError in Hh. injection Hh as <- <-.
    destruct (onError cfg); [|by apply elem_of_nil in Hfx].
    by apply list_elem_of_singleton in Hfx.
  - unfold onResponse, call_onError in Hh.
    destruct (r_error r) as [err|].
    { injection Hh as <- <-.
      destruct (onError cfg); [|by apply elem_of_nil in Hfx].
      by apply list_elem_of_singleton in Hfx. }
    destruct (r_id r) as [n|].
    + simpl in Hh. destruct (active w).
      { injection Hh as <- <-. by apply elem_of_nil in Hfx. }
      split; [done|]. destruct (is_fulfilled (returned w)).
      * right. by rewrite Hh.
      * injection Hh as <- <-. left. by apply list_elem_of_singleton in Hfx.
    + destruct (decide _) as [Hm|Hm]; injection Hh as <- <-.
      * by apply list_elem_of_singleton in Hfx.
      * by apply elem_of_nil in Hfx.
  - injection Hh as <- <-. by apply elem_of_nil in Hfx.
  - injection Hh as <- <-. by apply elem_of_nil in Hfx.
  - unfold unsubscribe in Hh. by rewrite Hh.
  - injection Hh as <- <-. by apply elem_of_nil in Hfx.
Qed.

(** What holds of the calls of every task holds of the calls of a run. *)
Lemma run_effects (Q : Effect -> Prop) :
  (forall w e fx, closure_inv w -> fx ∈ snd (step cfg w e) -> Q fx) ->
  forall evs w fx, closure_inv w -> fx ∈ snd (run cfg w evs) -> Q fx.
Proof.
  intros Hstep evs. induction evs as [|e evs IH]; intros w fx Hinv.
  - simpl. by rewrite elem_of_nil.
  - rewrite run_cons. simpl. rewrite elem_of_app. intros [H|H].
    + by eapply Hstep.
    + eapply IH; [|done]. by apply step_closure_inv.
Qed.

(** [cleanup] is never read before its declaration has run. *)
Lemma no_reference_error (evs : list Event) (err : Thrown) :
  Raise err ∉ trace cfg evs.
Proof.
  unfold trace. simpl. rewrite elem_of_cons. intros [H|H]; [done|].
  assert (Hq : forall fx, fx ∈ snd (run cfg (fst (subscribe cfg)) evs) ->
                          forall err', fx <> Raise err').
  { intros fx.
    apply (run_effects (fun fx => forall err', fx <> Raise err'));
      [|apply closure_inv_init].
    intros w e fx0 [Hact _] Hfx0 err' ->.
    apply step_effects in Hfx0 as [Hen Hc].
    destruct e as [s| |e0|s r|s|s rs| |j r]; try done.
    - by destruct Hc.
    - destruct (r_error r); [by destruct Hc|].
      destruct (r_id r); [|by destruct Hc].
      destruct Hc as [Ha [[Hf _]|Hc]].
      + by rewrite (Hact Ha) in Hf.
      + apply cleanup_effects in Hc as [Hc|(? & ? & _ & _ & _ & Hc)]; done.
    - apply cleanup_effects in Hc as [Hc|(? & ? & _ & _ & _ & Hc)]; done. }
  by apply (Hq _ H err).
Qed.


(** *** The bound socket and the identifier *)

Lemma handle_subscriptionId (e : Event) (w : World) :
  subscriptionId (fst (handle cfg e w)) =
  match e with
  | SocketCreated _ => None
  | Response _ r => if is_ack r then r_result r else subscriptionId w
  | SocketClosed s =>
    if decide (subscriptionSocket w = Some s) then None else subscriptionId w
  | _ => subscriptionId w
  end.
Proof.
  destruct e; simpl; try done.
  - unfold onResponse, is_ack, cleanup. repeat case_match; done.
  - unfold onSocketClosed. by case_match.
  - unfold unsubscribe, cleanup. repeat case_match; done.
  - unfold resolve_cleanup. repeat case_match; done.
Qed.

Lemma handle_subscriptionSocket (e : Event) (w : World) :
  subscriptionSocket (fst (handle cfg e w)) =
  match e with
  | SocketCreated s => Some s
  | SocketClosed s =>
    if decide (subscriptionSocket w = Some s) then None else subscriptionSocket w
  | _ => subscriptionSocket w
  end.
Proof.
  destruct e; simpl; try done.
  - unfold onResponse, cleanup. repeat case_match; done.
  - unfold onSocketClosed. by case_match.
  - unfold unsubscribe, cleanup. repeat case_match; done.
  - unfold resolve_cleanup. repeat case_match; done.
Qed.

Lemma handle_listeners (e : Event) (w : World) :
  listeners (fst (handle cfg e w)) =
  match e with SocketCreated s => s :: listeners w | _ => listeners w end.
Proof.
  destruct e; simpl; try done.
  - unfold onResponse, cleanup. repeat case_match; done.
  - unfold onSocketClosed. by case_match.
  - unfold unsubscribe, cleanup. repeat case_match; done.
  - unfold resolve_cleanup. repeat case_match; done.
Qed.

Lemma step_subscriptionId (w : World) (e : Event) :
  subscriptionId (fst (step cfg w e)) =
  if enabled w e then subscriptionId (fst (handle cfg e w)) else subscriptionId w.
Proof.
  unfold step. destruct (enabled w e); [|done].
  destruct (handle cfg e w) as [w' fx]; simpl.
  by destruct (resume_fields w') as (_ & _ & -> & _).
Qed.

Lemma step_subscriptionSocket (w : World) (e : Event) :
  subscriptionSocket (fst (step cfg w e)) =
  if enabled w e then subscriptionSocket (fst (handle cfg e w))
  else subscriptionSocket w.
Proof.
  unfold step. destruct (enabled w e); [|done].
  destruct (handle cfg e w) as [w' fx]; simpl.
  by destruct (resume_fields w') as (_ & -> & _).
Qed.

Lemma step_listeners (w : World) (e : Event) :
  listeners (fst (step cfg w e)) =
  if enabled w e then listeners (fst (handle cfg e w)) else listeners w.
Proof.
  unfold step. destruct (enabled w e); [|done].
  destruct (handle cfg e w) as [w' fx]; simpl.
  by destruct (resume_fields w') as (_ & _ & _ & _ & _ & _ & -> & _).
Qed.

(** The open call made on a socket keeps its listener. *)
Lemma run_listeners (evs : list Event) (w : World) (s : Socket) :
  s ∈ listeners w -> s ∈ listeners (fst (run cfg w evs)).
Proof.
  apply (run_preserves (fun w => s ∈ listeners w)).
  intros w' e Hs. rewrite step_listeners, handle_listeners.
  destruct (enabled w' e); [|done].
  destruct e; try done. apply elem_of_cons. by right.
Qed.

(** Without an acknowledgement the identifier stays [undefined]. *)
Lemma run_no_ack (evs : list Event) (w : World) :
  no_ack evs = true -> subscriptionId w = None ->
  subscriptionId (fst (run cfg w evs)) = None.
Proof.
  revert w. induction evs as [|e evs IH]; intros w Hno Hid; [done|].
  rewrite run_cons. simpl. simpl in Hno.
  apply andb_prop in Hno as [He Hno].
  apply IH; [done|].
  rewrite step_subscriptionId, handle_subscriptionId.
  destruct (enabled w e); [|done].
  destruct e; try done.
  - by apply negb_true_iff in He as ->.
  - by case_decide.
Qed.

End Run.

(** ** C1: teardown messages per subscription *)

(** C1, as stated, fails: with the subscription open on an open socket,
    two [unsubscribe()] calls send two [eth_unsubscribe] messages, both for
    the identifier "0xa". *)
Lemma C1_second_unsubscribe_sends_second_teardown :
  teardowns (trace demo double_unsubscribe) =
    [WebSocketSend 1 OPEN (eth_unsubscribe "0xa") (ResolveCleanup 0);
     WebSocketSend 1 OPEN (eth_unsubscribe "0xa") (ResolveCleanup 1)] /\
  ~ (forall evs, length (teardowns (trace demo evs)) <= 1).
Proof.
  assert (Hrun : teardowns (trace demo double_unsubscribe) =
    [WebSocketSend 1 OPEN (eth_unsubscribe "0xa") (ResolveCleanup 0);
     WebSocketSend 1 OPEN (eth_unsubscribe "0xa") (ResolveCleanup 1)])
    by (vm_compute; reflexivity).
  split; [exact Hrun|].
  intros Hle. specialize (Hle double_unsubscribe). rewrite Hrun in Hle. simpl in Hle. lia.
Qed.

(** C1, amended: every run of [cleanup] sends at most one teardown message,
    so the teardown messages of a subscription never outnumber the
    [unsubscribe()] calls plus the open-call acknowledgements received after
    [unsubscribe()]; and [unsubscribe()] does not remember that it ran: a
    second call right after the first sends as many teardown messages as the
    first did. *)
Theorem C1_teardowns_bounded_by_cleanup_calls (cfg : Config) :
  (forall evs, length (teardowns (trace cfg evs)) <= cleanup_calls false evs) /\
  (forall w,
     length (teardowns (snd (step cfg (fst (step cfg w Unsubscribe)) Unsubscribe))) =
     length (teardowns (snd (step cfg w Unsubscribe)))).
Proof.
  split.
  - intros evs. unfold trace. simpl.
    apply (run_teardowns_le cfg evs (fst (subscribe cfg))).
  - intros w. rewrite !step_unsubscribe.
    destruct (is_fulfilled (returned w)) eqn:Hr; [|simpl; by rewrite Hr].
    pose proof (cleanup_fields true (set_active false w)) as Hf. simpl in Hf.
    destruct Hf as (_ & Hs & Hid & _ & _ & Hret & _ & _ & Hso & _).
    rewrite Hret, Hr, !cleanup_teardowns_length. simpl.
    unfold readyState. simpl. by rewrite Hs, Hid, Hso.
Qed.

(** ** C2: unsubscribing before the identifier is known *)

(** C2, as stated, fails: the consumer unsubscribes while the repeated open
    call is outstanding, socket 2 begins to close, and the acknowledgement
    that supplies "0xb" is handled with [readyState] CLOSING: [cleanup]
    returns at its [readyState] guard and no teardown message is sent. *)
Lemma C2_no_teardown_when_socket_is_closing :
  (enabled (world_after demo reopening) Unsubscribe = true /\
   subscriptionId (world_after demo reopening) = None /\
   enabled (world_after demo cancelled_then_closing) (Response 2 (ok "0xb" 2)) = true /\
   subscriptionId
     (fst (step demo (world_after demo cancelled_then_closing) (Response 2 (ok "0xb" 2))))
     = Some "0xb" /\
   snd (step demo (world_after demo cancelled_then_closing) (Response 2 (ok "0xb" 2)))
     = [UnsubscribeSocket] /\
   teardowns (trace demo (cancelled_then_closing ++ [Response 2 (ok "0xb" 2)])) = []) /\
  ~ (forall cfg evs1 evs2 s r sid,
       enabled (world_after cfg evs1) Unsubscribe = true ->
       subscriptionId (world_after cfg evs1) = None ->
       enabled (world_after cfg (evs1 ++ Unsubscribe :: evs2)) (Response s r) = true ->
       is_ack r = true -> r_result r = Some sid ->
       exists bound rs l,
         WebSocketSend bound rs (eth_unsubscribe sid) l ∈
           snd (step cfg (world_after cfg (evs1 ++ Unsubscribe :: evs2)) (Response s r))).
Proof.
  split; [vm_compute; repeat split; reflexivity|].
  intros H.
  destruct (H demo reopening [ReadyStateChange 2 CLOSING] 2 (ok "0xb" 2) "0xb"
              eq_refl eq_refl eq_refl eq_refl eq_refl) as (bound & rs & l & Hin).
  assert (Hfx : snd (step demo
                       (world_after demo (reopening ++ Unsubscribe :: [ReadyStateChange 2 CLOSING]))
                       (Response 2 (ok "0xb" 2))) = [UnsubscribeSocket])
    by (vm_compute; reflexivity).
  rewrite Hfx in Hin. by apply list_elem_of_singleton in Hin.
Qed.

(** C2, amended: if [unsubscribe()] is called while the record has no
    identifier, no teardown message is sent at that moment, and as soon as
    an open-call response supplies an identifier, one teardown message
    carrying exactly that identifier is sent on the bound socket, provided
    a socket is bound and its [readyState] is OPEN at that moment. *)
Theorem C2_deferred_teardown (cfg : Config) (evs1 evs2 : list Event) :
  enabled (world_after cfg evs1) Unsubscribe = true ->
  subscriptionId (world_after cfg evs1) = None ->
  teardowns (snd (step cfg (world_after cfg evs1) Unsubscribe)) = [] /\
  forall (s : Socket) (r : RpcResponse) (sid : Hash) (bound : Socket),
    enabled (world_after cfg (evs1 ++ Unsubscribe :: evs2)) (Response s r) = true ->
    is_ack r = true -> r_result r = Some sid ->
    subscriptionSocket (world_after cfg (evs1 ++ Unsubscribe :: evs2)) = Some bound ->
    readyState (world_after cfg (evs1 ++ Unsubscribe :: evs2)) bound = OPEN ->
    teardowns (snd (step cfg (world_after cfg (evs1 ++ Unsubscribe :: evs2)) (Response s r)))
    = [WebSocketSend bound OPEN (eth_unsubscribe sid)
         (ResolveCleanup (length (cleanups (world_after cfg (evs1 ++ Unsubscribe :: evs2)))))].
Proof.
  intros Hen Hid. split.
  - rewrite step_unsubscribe. simpl in Hen. rewrite Hen.
    apply cleanup_teardowns_none. by left.
  - intros s r sid bound Hen' Hack Hres Hs Ho.
    set (w := world_after cfg (evs1 ++ Unsubscribe :: evs2)) in *.
    assert (Ha : active w = false).
    { subst w. rewrite world_after_app, run_cons. simpl.
      apply run_inactive_stable. rewrite step_active. by rewrite Hen. }
    assert (Hr : returned w = Fulfilled tt).
    { by apply (closure_inv_world_after cfg (evs1 ++ Unsubscribe :: evs2)). }
    rewrite step_ack_inactive by done.
    rewrite (cleanup_teardowns_open _ _ sid bound); done.
Qed.

Lemma C2_deferred_teardown_witness :
  teardowns (snd (step demo (world_after demo reopening) Unsubscribe)) = [] /\
  teardowns (snd (step demo (world_after demo (reopening ++ [Unsubscribe]))
                    (Response 2 (ok "0xb" 2))))
  = [WebSocketSend 2 OPEN (eth_unsubscribe "0xb") (ResolveCleanup 1)].
Proof.
  destruct (C2_deferred_teardown demo reopening [] eq_refl eq_refl) as [H1 H2].
  split; [exact H1|].
  exact (H2 2 (ok "0xb" 2) "0xb" 2 eq_refl eq_refl eq_refl eq_refl eq_refl).
Defined.

(** ** C3: a failing open call *)

(** C3, as stated, fails: when the first reply to the open call carries an
    error, or when the socket registration fails, the awaited promise is
    rejected, so [subscribe()] rejects and hands out no handle: there is no
    [unsubscribe()] to call. *)
Lemma C3_failed_subscribe_returns_no_handle :
  (returned (world_after demo open_call_fails) = Rejected (RpcErrorValue denied) /\
   enabled (world_after demo open_call_fails) Unsubscribe = false /\
   returned (world_after demo registration_fails)
     = Rejected (CollaboratorError "connection refused") /\
   enabled (world_after demo registration_fails) Unsubscribe = false) /\
  ~ (forall cfg evs s r e,
       returned (world_after cfg evs) = Pending ->
       enabled (world_after cfg evs) (Response s r) = true ->
       r_error r = Some e ->
       returned (fst (step cfg (world_after cfg evs) (Response s r))) = Fulfilled tt).
Proof.
  split; [vm_compute; repeat split; reflexivity|].
  intros H.
  specialize (H demo awaiting_first_reply 1 (failed 1 denied) denied
                eq_refl eq_refl eq_refl).
  vm_compute in H. discriminate H.
Qed.

(** C3, amended: when the open call fails (the open-call response carries
    an error, or the socket registration fails), the error is delivered to
    the consumer's [onError] callback when one was passed; and if
    [subscribe()] is still pending at that moment, its promise is rejected
    with that error, so that no handle is ever returned and [unsubscribe()]
    can never be called. *)
Theorem C3_failed_open_call_rejects_subscribe (cfg : Config) (evs : list Event) :
  (forall s r e,
     enabled (world_after cfg evs) (Response s r) = true ->
     r_error r = Some e ->
     snd (step cfg (world_after cfg evs) (Response s r))
       = (if onError cfg then [OnError (RpcErrorValue e)] else []) /\
     (returned (world_after cfg evs) = Pending ->
      returned (fst (step cfg (world_after cfg evs) (Response s r)))
        = Rejected (RpcErrorValue e) /\
      forall evs',
        enabled (fst (run cfg (fst (step cfg (world_after cfg evs) (Response s r))) evs'))
                Unsubscribe = false)) /\
  (forall e,
     enabled (world_after cfg evs) (RegisterFailed e) = true ->
     snd (step cfg (world_after cfg evs) (RegisterFailed e))
       = (if onError cfg then [OnError e] else []) /\
     (returned (world_after cfg evs) = Pending ->
      returned (fst (step cfg (world_after cfg evs) (RegisterFailed e))) = Rejected e /\
      forall evs',
        enabled (fst (run cfg (fst (step cfg (world_after cfg evs) (RegisterFailed e))) evs'))
                Unsubscribe = false)).
Proof.
  pose proof (closure_inv_world_after cfg evs) as [_ Hopen].
  set (w := world_after cfg evs) in *.
  split.
  - intros s r e Hen He. split.
    { unfold step. rewrite Hen. simpl. unfold onResponse. by rewrite He. }
    intros Hret. specialize (Hopen Hret).
    assert (Hrej : returned (fst (step cfg w (Response s r))) = Rejected (RpcErrorValue e)).
    { rewrite step_returned, Hen, Hret, handle_opening, He, Hopen. done. }
    split; [done|].
    intros evs'. simpl. rewrite run_returned_stable; by rewrite Hrej.
  - intros e Hen. split.
    { unfold step. rewrite Hen. done. }
    intros Hret. specialize (Hopen Hret).
    assert (Hrej : returned (fst (step cfg w (RegisterFailed e))) = Rejected e).
    { rewrite step_returned, Hen, Hret, handle_opening, Hopen. done. }
    split; [done|].
    intros evs'. simpl. rewrite run_returned_stable; by rewrite Hrej.
Qed.

Lemma C3_failed_open_call_rejects_subscribe_witness :
  snd (step demo (world_after demo awaiting_first_reply) (Response 1 (failed 1 denied)))
    = [OnError (RpcErrorValue denied)] /\
  returned (fst (step demo (world_after demo awaiting_first_reply)
                   (Response 1 (failed 1 denied))))
    = Rejected (RpcErrorValue denied) /\
  returned (fst (step demo (world_after demo awaiting_first_reply)
                   (RegisterFailed (CollaboratorError "connection refused"))))
    = Rejected (CollaboratorError "connection refused").
Proof.
  destruct (C3_failed_open_call_rejects_subscribe demo awaiting_first_reply) as [H1 H2].
  destruct (H1 1 (failed 1 denied) denied eq_refl eq_refl) as (Ha & Hb).
  destruct (Hb eq_refl) as (Hb' & _).
  destruct (H2 (CollaboratorError "connection refused") eq_refl) as (_ & Hc).
  destruct (Hc eq_refl) as (Hc' & _).
  exact (conj Ha (conj Hb' Hc')).
Defined.

(** ** C4: the promise [unsubscribe()] returns *)

(** When [cleanup] sends no teardown message, no call holds the [resolve]
    of the promise it made: the promise stays pending whatever happens. *)
Lemma cleanup_without_teardown_never_resolves
    (cfg : Config) (by_unsubscribe : bool) (w : World) (evs : list Event) :
  teardowns (snd (cleanup by_unsubscribe w)) = [] ->
  cleanups (fst (run cfg (fst (cleanup by_unsubscribe w)) evs)) !! length (cleanups w)
  = Some {| settled := None; listening := false; from_unsubscribe := by_unsubscribe |}.
Proof.
  intros Hnone. apply run_unheld_promise; [|done].
  destruct (cleanup_fields by_unsubscribe w)
    as (_ & _ & _ & _ & _ & _ & _ & _ & _ & sent & Hc).
  simpl in Hc. rewrite Hc.
  assert (sent = false) as ->; [|by apply list_lookup_middle].
  revert Hc Hnone. unfold cleanup, teardowns.
  destruct (subscriptionId w); [destruct (subscriptionSocket w);
    [destruct (decide _)|]|]; simpl;
    intros Hc; apply app_inv_head in Hc; injection Hc as <-; try done.
  rewrite filter_app. simpl. by destruct (filter _ _).
Qed.

(** C4, as stated, fails.  With the subscription open, the promise
    [unsubscribe()] returns is still pending after the teardown message was
    sent: it waits for the reply.  And [unsubscribe()] called while the
    record has no identifier returns a promise that is not resolved
    immediately: it is still pending after the deferred teardown was sent
    and answered. *)
Lemma C4_unsubscribe_promise_stays_pending :
  (teardowns (snd (step demo (world_after demo opened) Unsubscribe))
     = [WebSocketSend 1 OPEN (eth_unsubscribe "0xa") (ResolveCleanup 0)] /\
   cleanups (fst (step demo (world_after demo opened) Unsubscribe))
     = [{| settled := None; listening := true; from_unsubscribe := true |}] /\
   subscriptionId (world_after demo reopening) = None /\
   cleanups (world_after demo cancelled_while_reopening)
     = [{| settled := None; listening := false; from_unsubscribe := true |}] /\
   cleanups (world_after demo deferred_teardown_answered)
     = [{| settled := None; listening := false; from_unsubscribe := true |};
        {| settled := Some (unsubscribed 3); listening := true;
           from_unsubscribe := false |}]) /\
  ~ (forall cfg evs,
       enabled (world_after cfg evs) Unsubscribe = true ->
       exists c r,
         cleanups (fst (step cfg (world_after cfg evs) Unsubscribe))
           !! length (cleanups (world_after cfg evs)) = Some c /\
         settled c = Some r).
Proof.
  split; [vm_compute; repeat split; reflexivity|].
  intros H. destruct (H demo reopening eq_refl) as (c & r & Hc & Hr).
  vm_compute in Hc. injection Hc as <-. discriminate Hr.
Qed.

(** C4, amended: when a call to [unsubscribe()] sends a teardown message,
    the promise it returns stays pending until the reply to that message is
    received and is resolved, with the reply, when it is received. *)
Theorem C4_unsubscribe_promise_resolves_on_reply
    (cfg : Config) (evs evs' : list Event) (r : RpcResponse) :
  enabled (world_after cfg evs) Unsubscribe = true ->
  teardowns (snd (step cfg (world_after cfg evs) Unsubscribe)) <> [] ->
  no_reply_to (length (cleanups (world_after cfg evs))) evs' = true ->
  cleanups (fst (run cfg (fst (step cfg (world_after cfg evs) Unsubscribe)) evs'))
    !! length (cleanups (world_after cfg evs))
  = Some {| settled := None; listening := true; from_unsubscribe := true |} /\
  cleanups
    (fst (step cfg
            (fst (run cfg (fst (step cfg (world_after cfg evs) Unsubscribe)) evs'))
            (TeardownResponse (length (cleanups (world_after cfg evs))) r)))
    !! length (cleanups (world_after cfg evs))
  = Some {| settled := Some r; listening := true; from_unsubscribe := true |}.
Proof.
  set (w := world_after cfg evs). intros Hen Hsent Hno.
  rewrite step_unsubscribe in *. simpl in Hen. rewrite Hen in *.
  destruct (cleanup_fields true (set_active false w))
    as (_ & _ & _ & _ & _ & _ & _ & _ & _ & sent & Hc). simpl in Hc.
  assert (sent = true) as ->.
  { destruct sent; [done|]. exfalso. apply Hsent.
    revert Hc. unfold cleanup, teardowns. simpl.
    destruct (subscriptionId w); [destruct (subscriptionSocket w);
      [unfold readyState; simpl; destruct (decide _)|]|]; simpl;
      intros Hc; apply app_inv_head in Hc; try discriminate Hc;
      by destruct (unsubscribeSocket w). }
  assert (Hi : cleanups (fst (run cfg (fst (cleanup true (set_active false w))) evs'))
                 !! length (cleanups w)
               = Some {| settled := None; listening := true; from_unsubscribe := true |}).
  { apply run_promise_unanswered; [|done]. rewrite Hc. by apply list_lookup_middle. }
  split; [done|].
  by rewrite (step_teardown_response cfg _ _ r _ Hi).
Qed.

Lemma C4_unsubscribe_promise_resolves_on_reply_witness :
  cleanups (fst (run demo (fst (step demo (world_after demo opened) Unsubscribe))
                   [Response 1 (notification new_head)])) !! 0
    = Some {| settled := None; listening := true; from_unsubscribe := true |} /\
  cleanups (fst (step demo
                   (fst (run demo (fst (step demo (world_after demo opened) Unsubscribe))
                           [Response 1 (notification new_head)]))
                   (TeardownResponse 0 (unsubscribed 2)))) !! 0
    = Some {| settled := Some (unsubscribed 2); listening := true;
              from_unsubscribe := true |}.
Proof.
  apply (C4_unsubscribe_promise_resolves_on_reply demo opened
           [Response 1 (notification new_head)] (unsubscribed 2));
    [reflexivity| |reflexivity].
  vm_compute. discriminate.
Defined.

(** ** C5: data after an early [unsubscribe()] *)

(** C5, as stated, fails: the consumer unsubscribes before the reply of the
    repeated open call; the acknowledgement arrives and the deferred
    teardown is sent; a push notification that arrives next is handed to
    [onData], because the [onData] path does not look at [active]. *)
Lemma C5_notification_after_unsubscribe_reaches_onData :
  (enabled (world_after demo reopening) Unsubscribe = true /\
   subscriptionId (world_after demo reopening) = None /\
   snd (run demo (world_after demo cancelled_while_reopening)
          [Response 2 (ok "0xb" 2); Response 2 (notification new_head)])
     = [UnsubscribeSocket;
        WebSocketSend 2 OPEN (eth_unsubscribe "0xb") (ResolveCleanup 1);
        OnData (Some new_head)]) /\
  ~ (forall cfg evs1 evs2 p,
       enabled (world_after cfg evs1) Unsubscribe = true ->
       subscriptionId (world_after cfg evs1) = None ->
       OnData p ∉ snd (run cfg (world_after cfg (evs1 ++ [Unsubscribe])) evs2)).
Proof.
  split; [vm_compute; repeat split; reflexivity|].
  intros H.
  apply (H demo reopening [Response 2 (ok "0xb" 2); Response 2 (notification new_head)]
           (Some new_head) eq_refl eq_refl).
  apply (bool_decide_unpack _). vm_compute. exact I.
Qed.

(** C5, amended: whether or not [unsubscribe()] has been called, [onData]
    is called with the [params] of exactly those frames handed to
    [onResponse] that carry no error, no numeric id and the method
    [eth_subscription]; the open-call response itself (numeric id) is never
    delivered to [onData]. *)
Theorem C5_onData_exactly_for_notifications
    (cfg : Config) (w : World) (e : Event) (p : option Notification) :
  OnData p ∈ snd (step cfg w e) <->
  exists s r, e = Response s r /\ enabled w e = true /\
              r_error r = None /\ r_id r = None /\
              r_method r = Some "eth_subscription" /\ p = r_params r.
Proof.
  split.
  - intros H. apply step_effects in H as [Hen Hc].
    destruct e as [s| |e0|s r|s|s rs| |j r]; try done.
    + by destruct Hc.
    + exists s, r. destruct (r_error r) as [err|]; [by destruct Hc|].
      destruct (r_id r) as [n|].
      * destruct Hc as [_ [[_ Hc]|Hc]]; [done|].
        apply cleanup_effects in Hc as [Hc|(? & ? & _ & _ & _ & Hc)]; done.
      * destruct Hc as [Hm Hc]. injection Hc as ->. done.
    + apply cleanup_effects in Hc as [Hc|(? & ? & _ & _ & _ & Hc)]; done.
  - intros (s & r & -> & Hen & Herr & Hid & Hm & ->).
    unfold step. rewrite Hen. simpl. unfold onResponse.
    rewrite Herr, Hid, Hm. rewrite decide_True by done.
    simpl. by apply list_elem_of_singleton.
Qed.

Lemma C5_onData_exactly_for_notifications_witness :
  OnData (Some new_head) ∈
    snd (step demo (world_after demo opened) (Response 1 (notification new_head))) /\
  OnData (Some new_head) ∈
    snd (step demo
           (world_after demo (cancelled_while_reopening ++ [Response 2 (ok "0xb" 2)]))
           (Response 2 (notification new_head))).
Proof.
  split.
  - apply (proj2 (C5_onData_exactly_for_notifications demo (world_after demo opened)
                    (Response 1 (notification new_head)) (Some new_head))).
    exists 1, (notification new_head). repeat split; reflexivity.
  - apply (proj2 (C5_onData_exactly_for_notifications demo
                    (world_after demo (cancelled_while_reopening ++ [Response 2 (ok "0xb" 2)]))
                    (Response 2 (notification new_head)) (Some new_head))).
    exists 2, (notification new_head). repeat split; reflexivity.
Defined.

(** ** C6: socket (re)creation *)

(** On socket (re)creation the record is bound to the new socket, the
    identifier is reset to [undefined], and exactly one call is made, the
    [eth_subscribe] open call on the new socket; the identifier then stays
    [undefined] as long as no open-call response is handled at all, and the
    response to the new open call sets it. *)
Lemma socket_created_rebinds_and_reopens (cfg : Config) (w : World) (socket : Socket) :
  subscriptionSocket (fst (step cfg w (SocketCreated socket))) = Some socket /\
  subscriptionId (fst (step cfg w (SocketCreated socket))) = None /\
  snd (step cfg w (SocketCreated socket)) =
    [WebSocketSend socket (readyState w socket) (eth_subscribe (params cfg))
       (OnResponse socket)] /\
  (forall evs, no_ack evs = true ->
     subscriptionId (fst (run cfg (fst (step cfg w (SocketCreated socket))) evs)) = None) /\
  (forall evs r, no_ack evs = true -> is_ack r = true ->
     subscriptionId
       (fst (step cfg (fst (run cfg (fst (step cfg w (SocketCreated socket))) evs))
               (Response socket r))) = r_result r).
Proof.
  assert (Hs : subscriptionSocket (fst (step cfg w (SocketCreated socket))) = Some socket)
    by (by rewrite step_subscriptionSocket, handle_subscriptionSocket).
  assert (Hid : subscriptionId (fst (step cfg w (SocketCreated socket))) = None)
    by (by rewrite step_subscriptionId, handle_subscriptionId).
  repeat split; try done.
  - intros evs Hno. by apply run_no_ack.
  - intros evs r Hno Hack.
    rewrite step_subscriptionId, handle_subscriptionId, Hack.
    assert (Hl : socket ∈ listeners
                   (fst (run cfg (fst (step cfg w (SocketCreated socket))) evs))).
    { apply run_listeners. rewrite step_listeners, handle_listeners. simpl.
      apply elem_of_cons. by left. }
    simpl. by rewrite bool_decide_eq_true_2.
Qed.

(** C6, at the failing input.  The open call made on socket 1 is still
    unanswered when socket 2 is created: the record is bound to socket 2,
    the identifier is reset and one open call is sent on socket 2, as the
    claim says.  But the late acknowledgement of the open call made on
    socket 1 is handled by the same [onResponse] and sets the identifier
    although the response to the new open call has not arrived; an
    [unsubscribe()] then sends the teardown for that identifier on socket 2.
    The close handler compares its socket with the bound one before it
    touches the record; [onResponse] does not.  So the identifier does not
    stay [undefined] until the response to the new open call arrives. *)
Lemma C6_stale_acknowledgement_sets_identifier :
  (subscriptionSocket (world_after demo reconnected_before_reply) = Some 2 /\
   subscriptionId (world_after demo reconnected_before_reply) = None /\
   snd (step demo (world_after demo second_socket_pending) (SocketCreated 2))
     = [WebSocketSend 2 OPEN (eth_subscribe ["newHeads"]) (OnResponse 2)] /\
   enabled (world_after demo reconnected_before_reply) (Response 1 stale_ack) = true /\
   subscriptionSocket (world_after demo (reconnected_before_reply ++ [Response 1 stale_ack]))
     = Some 2 /\
   subscriptionId (world_after demo (reconnected_before_reply ++ [Response 1 stale_ack]))
     = Some "0xstale" /\
   teardowns
     (snd (step demo
             (world_after demo (reconnected_before_reply ++ [Response 1 stale_ack]))
             Unsubscribe))
     = [WebSocketSend 2 OPEN (eth_unsubscribe "0xstale") (ResolveCleanup 0)]) /\
  ~ (forall cfg w socket evs,
       forallb (fun e => match e with
                         | Response s r => negb (Nat.eqb s socket && is_ack r)
                         | _ => true
                         end) evs = true ->
       subscriptionId (fst (run cfg (fst (step cfg w (SocketCreated socket))) evs)) = None).
Proof.
  split; [vm_compute; repeat split; reflexivity|].
  intros H.
  specialize (H demo (world_after demo second_socket_pending) 2 [Response 1 stale_ack]
                eq_refl).
  vm_compute in H. discriminate H.
Qed.

(** ** C9: the close handler *)

(** C9: the close handler of a socket that is not the bound socket leaves
    the bound socket and the identifier as they are; the close handler of
    the bound socket clears both. *)
Theorem C9_close_handler_checks_bound_socket (cfg : Config) (w : World) (socket : Socket) :
  (subscriptionSocket w <> Some socket ->
   subscriptionSocket (fst (step cfg w (SocketClosed socket))) = subscriptionSocket w /\
   subscriptionId (fst (step cfg w (SocketClosed socket))) = subscriptionId w) /\
  (enabled w (SocketClosed socket) = true -> subscriptionSocket w = Some socket ->
   subscriptionSocket (fst (step cfg w (SocketClosed socket))) = None /\
   subscriptionId (fst (step cfg w (SocketClosed socket))) = None).
Proof.
  rewrite step_subscriptionSocket, step_subscriptionId,
    handle_subscriptionSocket, handle_subscriptionId.
  split.
  - intros Hne. rewrite !decide_False by done.
    by destruct (enabled w (SocketClosed socket)).
  - intros -> Hs. by rewrite !decide_True.
Qed.

Lemma C9_close_handler_checks_bound_socket_witness :
  (subscriptionSocket (fst (step demo (world_after demo rebound) (SocketClosed 1))) = Some 2 /\
   subscriptionId (fst (step demo (world_after demo rebound) (SocketClosed 1))) = Some "0xb") /\
  (subscriptionSocket (fst (step demo (world_after demo rebound) (SocketClosed 2))) = None /\
   subscriptionId (fst (step demo (world_after demo rebound) (SocketClosed 2))) = None).
Proof.
  split.
  - apply (proj1 (C9_close_handler_checks_bound_socket demo (world_after demo rebound) 1)).
    vm_compute. discriminate.
  - apply (proj2 (C9_close_handler_checks_bound_socket demo (world_after demo rebound) 2));
      reflexivity.
Defined.

(** ** C8: teardown only on an open socket *)

(** C8: whenever a task sends an [eth_unsubscribe] message, the socket it
    is sent on has [readyState] OPEN at that moment, so the send cannot
    fail for a socket that is not open; and when the bound socket is not
    open, [cleanup] sends no message: all it does is call the registry's
    unregister callback, if it has one. *)
Theorem C8_teardown_only_on_open_socket (cfg : Config) :
  (forall w e s rs body l,
     WebSocketSend s rs body l ∈ snd (step cfg w e) ->
     b_method body = "eth_unsubscribe" ->
     readyState w s = OPEN /\ rs = OPEN /\ send_fails rs = false) /\
  (forall evs s rs body l,
     WebSocketSend s rs body l ∈ trace cfg evs ->
     b_method body = "eth_unsubscribe" ->
     rs = OPEN /\ send_fails rs = false) /\
  (forall by_unsubscribe w s,
     subscriptionSocket w = Some s -> readyState w s <> OPEN ->
     snd (cleanup by_unsubscribe w) =
       (if unsubscribeSocket w then [UnsubscribeSocket] else []) /\
     teardowns (snd (cleanup by_unsubscribe w)) = []).
Proof.
  assert (Hcleanup : forall b w s rs body l,
    WebSocketSend s rs body l ∈ snd (cleanup b w) ->
    readyState w s = OPEN /\ rs = OPEN /\ send_fails rs = false).
  { intros b w s rs body l H.
    apply cleanup_effects in H as [H|(s' & sid & _ & _ & Ho & H)]; [done|].
    injection H as -> -> _ _. by rewrite Ho. }
  assert (Hstep : forall w e s rs body l,
    WebSocketSend s rs body l ∈ snd (step cfg w e) ->
    b_method body = "eth_unsubscribe" ->
    readyState w s = OPEN /\ rs = OPEN /\ send_fails rs = false).
  { intros w e s rs body l H Hm. apply step_effects in H as [Hen Hc].
    destruct e as [s0| |e0|s0 r|s0|s0 rs0| |j r]; try done.
    - injection Hc as _ _ -> _. done.
    - by destruct Hc.
    - destruct (r_error r); [by destruct Hc|].
      destruct (r_id r); [|by destruct Hc].
      destruct Hc as [_ [[_ Hc]|Hc]]; [done|].
      by apply Hcleanup in Hc.
    - by apply Hcleanup in Hc. }
  split; [exact Hstep|]. split.
  - intros evs s rs body l H Hm. unfold trace in H. simpl in H.
    apply elem_of_cons in H as [H|H]; [done|].
    pose proof (run_effects cfg
      (fun fx => forall s rs body l,
         fx = WebSocketSend s rs body l -> b_method body = "eth_unsubscribe" ->
         rs = OPEN /\ send_fails rs = false)) as Hq.
    assert (Hall : forall w e fx, closure_inv w -> fx ∈ snd (step cfg w e) ->
              forall s rs body l,
                fx = WebSocketSend s rs body l -> b_method body = "eth_unsubscribe" ->
                rs = OPEN /\ send_fails rs = false).
    { intros w e fx _ Hfx s' rs' body' l' -> Hm'.
      by destruct (Hstep w e s' rs' body' l' Hfx Hm') as (_ & ? & ?). }
    exact (Hq Hall evs (fst (subscribe cfg)) (WebSocketSend s rs body l)
              (closure_inv_init cfg) H s rs body l eq_refl Hm).
  - intros b w s Hs Ho.
    assert (Hfx : snd (cleanup b w) = if unsubscribeSocket w then [UnsubscribeSocket] else []).
    { unfold cleanup. rewrite Hs. destruct (subscriptionId w); [|done].
      by rewrite decide_False. }
    split; [done|]. rewrite Hfx. by destruct (unsubscribeSocket w).
Qed.

Lemma C8_teardown_only_on_open_socket_witness :
  (OPEN = OPEN /\ send_fails OPEN = false) /\
  teardowns (snd (cleanup true (world_after demo open_then_closing))) = [].
Proof.
  destruct (C8_teardown_only_on_open_socket demo) as (_ & Htrace & Hclosed).
  split.
  - apply (Htrace double_unsubscribe 1 OPEN (eth_unsubscribe "0xa") (ResolveCleanup 0));
      [|reflexivity].
    apply (bool_decide_unpack _). vm_compute. exact I.
  - apply (Hclosed true (world_after demo open_then_closing) 1); [reflexivity|].
    vm_compute. discriminate.
Defined.

(** ** C10: when [subscribe()] resolves *)

(** C10: if the promise of [subscribe()] is fulfilled after some events,
    then one of them is an open-call response with a numeric id and no
    error, delivered to a listening [onResponse]; the promise was pending
    all the time before that response, and right after the task that handles
    it the promise is fulfilled and the identifier of the record is that
    response's [result]. *)
Theorem C10_subscribe_resolves_on_first_ack (cfg : Config) (evs : list Event) :
  returned (world_after cfg evs) = Fulfilled tt ->
  exists pre s r post,
    evs = pre ++ Response s r :: post /\
    (forall k, returned (world_after cfg (take k pre)) = Pending) /\
    enabled (world_after cfg pre) (Response s r) = true /\
    is_ack r = true /\
    returned (world_after cfg (pre ++ [Response s r])) = Fulfilled tt /\
    opening (world_after cfg (pre ++ [Response s r])) = Fulfilled r /\
    subscriptionId (world_after cfg (pre ++ [Response s r])) = r_result r.
Proof.
  induction evs as [|e evs IH] using rev_ind; [done|].
  rewrite world_after_snoc. intros Hret.
  destruct (returned (world_after cfg evs)) as [|[]|err] eqn:Hprev.
  - (* pending so far: [e] is the response that resolves it *)
    clear IH.
    pose proof (closure_inv_world_after cfg evs) as [_ Hopen].
    specialize (Hopen Hprev).
    set (w := world_after cfg evs) in *.
    rewrite step_returned, Hprev in Hret.
    destruct (enabled w e) eqn:Hen; [|done].
    rewrite handle_opening, Hopen in Hret.
    destruct e as [s| |e0|s r|s|s rs| |j r]; try done.
    destruct (r_error r) as [err|] eqn:Herr; [done|].
    destruct (r_id r) as [n|] eqn:Hid; [|done].
    assert (Hack : is_ack r = true) by (unfold is_ack; by rewrite Herr, Hid).
    exists evs, s, r, []. split; [done|]. split.
    { intros k. by apply pending_prefix. }
    rewrite world_after_snoc. fold w.
    split; [done|]. split; [done|]. split.
    { rewrite step_returned, Hprev, Hen, handle_opening, Herr, Hid, Hopen. done. }
    split.
    { rewrite step_opening, Hen, handle_opening, Herr, Hid, Hopen. done. }
    rewrite step_subscriptionId, Hen, handle_subscriptionId, Hack. done.
  - (* already fulfilled: the response is among the earlier events *)
    destruct (IH eq_refl) as (pre & s & r & post & -> & H).
    exists pre, s, r, (post ++ [e]). split; [|done].
    by rewrite <- app_assoc.
  - (* already rejected: it cannot become fulfilled *)
    rewrite step_returned_stable in Hret; congruence.
Qed.

Lemma C10_subscribe_resolves_on_first_ack_witness :
  exists pre s r post,
    opened = pre ++ Response s r :: post /\
    (forall k, returned (world_after demo (take k pre)) = Pending) /\
    enabled (world_after demo pre) (Response s r) = true /\
    is_ack r = true /\
    returned (world_after demo (pre ++ [Response s r])) = Fulfilled tt /\
    opening (world_after demo (pre ++ [Response s r])) = Fulfilled r /\
    subscriptionId (world_after demo (pre ++ [Response s r])) = r_result r.
Proof. exact (C10_subscribe_resolves_on_first_ack demo opened eq_refl). Defined.

(** ** C7: [request] *)

(** C7: once the socket is acquired and the call is answered, [request]
    resolves with the [result] of the response when the response carries no
    error, and rejects with an [RpcRequestError] made of the request body,
    the endpoint URL and the error of the response when it carries one. *)
Theorem C7_request_result_or_RpcRequestError
    (getSocket : string -> Result Socket)
    (webSocketAsync : Socket -> Body -> Z -> Result RpcResponse)
    (url chain_url : option string) (timeout_ config_timeout : option Z)
    (method : string) (ps : list string)
    (endpoint : string) (socket : Socket) (response : RpcResponse) :
  resolve_url url chain_url = inr endpoint ->
  getSocket endpoint = inr socket ->
  webSocketAsync socket {| b_method := method; b_params := ps |}
                 (resolve_timeout timeout_ config_timeout) = inr response ->
  (r_error response = None ->
   webSocket_request getSocket webSocketAsync url chain_url timeout_ config_timeout
                     method ps
   = inr (r_result response)) /\
  (forall e, r_error response = Some e ->
   webSocket_request getSocket webSocketAsync url chain_url timeout_ config_timeout
                     method ps
   = inl (RpcRequestError {| b_method := method; b_params := ps |} e endpoint)).
Proof.
  intros Hurl Hsocket Hreply. unfold webSocket_request, request.
  rewrite Hurl. simpl. rewrite Hsocket. simpl. rewrite Hreply. simpl.
  split.
  - by intros ->.
  - by intros e ->.
Qed.

Lemma C7_request_result_or_RpcRequestError_witness :
  webSocket_request mock_getSocket (mock_reply (ok "0x10" 1))
                    (Some "wss://node") None None None "eth_blockNumber" []
  = inr (Some "0x10") /\
  webSocket_request mock_getSocket (mock_reply (failed 1 reverted))
                    (Some "wss://node") None None None "eth_call" ["0xdead"]
  = inl (RpcRequestError {| b_method := "eth_call"; b_params := ["0xdead"] |}
           reverted "wss://node").
Proof.
  split.
  - apply (proj1 (C7_request_result_or_RpcRequestError
                    mock_getSocket (mock_reply (ok "0x10" 1))
                    (Some "wss://node") None None None "eth_blockNumber" []
                    "wss://node" 1 (ok "0x10" 1) eq_refl eq_refl eq_refl)).
    reflexivity.
  - apply (proj2 (C7_request_result_or_RpcRequestError
                    mock_getSocket (mock_reply (failed 1 reverted))
                    (Some "wss://node") None None None "eth_call" ["0xdead"]
                    "wss://node" 1 (failed 1 reverted) eq_refl eq_refl eq_refl)).
    reflexivity.
Defined.

(** * Further properties of the transport *)

(** ** The factory *)

Lemma resolve_url_cases (url chain_url : option string) :
  (truthy url = false /\ truthy chain_url = false /\
   resolve_url url chain_url = inl UrlRequiredError) \/
  (exists u, u <> "" /\ Some u = (if truthy url then url else chain_url) /\
             (truthy url = true \/ truthy chain_url = true) /\
             resolve_url url chain_url = inr u).
Proof.
  unfold resolve_url.
  destruct url as [[|a u]|], chain_url as [[|b c]|]; simpl;
    first [left; done | right; eexists; repeat split; eauto; done].
Qed.

(** X1: [webSocket] throws [UrlRequiredError], and nothing else, exactly
    when neither the [url] argument nor the chain supplies a non-empty
    address; otherwise the endpoint is the [url] argument when that is
    non-empty and the chain's address when it is not, and it is never the
    empty string. *)
Theorem X1_webSocket_endpoint
    (url chain_url : option string) (config : WebSocketTransportConfig)
    (retryCount_ timeout_ : option Z) :
  (webSocket url config chain_url retryCount_ timeout_ = inl UrlRequiredError <->
   truthy url = false /\ truthy chain_url = false) /\
  (forall e, webSocket url config chain_url retryCount_ timeout_ = inl e ->
             e = UrlRequiredError) /\
  (forall t, webSocket url config chain_url retryCount_ timeout_ = inr t ->
             t_url t <> "" /\
             Some (t_url t) = (if truthy url then url else chain_url)).
Proof.
  unfold webSocket.
  destruct (resolve_url_cases url chain_url)
    as [(Hu & Hc & ->)|(u & Hne & Hu & Hsome & ->)]; simpl.
  - split; [done|]. split; [by intros e [= <-]|done].
  - split; [|split; [done|by intros t [= <-]]].
    split; [done|]. intros [H1 H2]. destruct Hsome; congruence.
Qed.

Lemma X1_webSocket_endpoint_witness :
  webSocket (Some "") empty_config None None None = inl UrlRequiredError /\
  (forall t, webSocket (Some "") empty_config (Some "wss://chain") None None = inr t ->
             t_url t = "wss://chain").
Proof.
  split.
  - apply (proj1 (X1_webSocket_endpoint (Some "") None empty_config None None)).
    split; reflexivity.
  - intros t Ht.
    destruct (proj2 (proj2 (X1_webSocket_endpoint (Some "") (Some "wss://chain")
                              empty_config None None)) t Ht) as [_ Hu].
    simpl in Hu. by injection Hu.
Defined.

(** ** [request]: failures *)

(** X2: [request] passes a failure of [getSocket] or of
    [rpc.webSocketAsync] on unchanged (it does not wrap it in an
    [RpcRequestError]), and it resolves only when the socket was acquired,
    the call was answered and the response carries no error; the value is
    then the [result] of that response. *)
Theorem X2_request_failures_pass_through
    (getSocket : string -> Result Socket)
    (webSocketAsync : Socket -> Body -> Z -> Result RpcResponse)
    (endpoint : string) (limit : Z) (method : string) (ps : list string) :
  (forall e, getSocket endpoint = inl e ->
     request getSocket webSocketAsync endpoint limit method ps = inl e) /\
  (forall socket e,
     getSocket endpoint = inr socket ->
     webSocketAsync socket {| b_method := method; b_params := ps |} limit = inl e ->
     request getSocket webSocketAsync endpoint limit method ps = inl e) /\
  (forall v,
     request getSocket webSocketAsync endpoint limit method ps = inr v ->
     exists socket response,
       getSocket endpoint = inr socket /\
       webSocketAsync socket {| b_method := method; b_params := ps |} limit
         = inr response /\
       r_error response = None /\ v = r_result response).
Proof.
  unfold request. repeat split.
  - by intros e ->.
  - intros socket e Hs Hr. rewrite Hs. simpl. by rewrite Hr.
  - intros v. destruct (getSocket endpoint) as [e|socket]; simpl; [done|].
    destruct (webSocketAsync socket _ limit) as [e|response] eqn:Hr; simpl; [done|].
    destruct (r_error response) eqn:He; [done|].
    intros [= <-]. by exists socket, response.
Qed.

Lemma X2_request_failures_pass_through_witness :
  request failing_getSocket (mock_reply (ok "0x10" 1)) "wss://node" 10000
          "eth_blockNumber" [] = inl (CollaboratorError "connection refused") /\
  request mock_getSocket timing_out "wss://node" 10000 "eth_blockNumber" []
    = inl (CollaboratorError "timeout") /\
  (exists socket response,
     mock_getSocket "wss://node" = inr socket /\
     mock_reply (ok "0x10" 1) socket
       {| b_method := "eth_blockNumber"; b_params := [] |} 10000 = inr response /\
     r_error response = None /\ Some "0x10" = r_result response).
Proof.
  split; [|split].
  - apply (proj1 (X2_request_failures_pass_through failing_getSocket
                    (mock_reply (ok "0x10" 1)) "wss://node" 10000 "eth_blockNumber" [])).
    reflexivity.
  - apply (proj1 (proj2 (X2_request_failures_pass_through mock_getSocket timing_out
                           "wss://node" 10000 "eth_blockNumber" [])) 1);
      reflexivity.
  - apply (proj2 (proj2 (X2_request_failures_pass_through mock_getSocket
                           (mock_reply (ok "0x10" 1))
                           "wss://node" 10000 "eth_blockNumber" []))).
    reflexivity.
Defined.

(** ** Runs of a subscription *)

Section Coverage.
Variable cfg : Config.

Lemma step_snd (w : World) (e : Event) :
  snd (step cfg w e) = if enabled w e then snd (handle cfg e w) else [].
Proof.
  unfold step. destruct (enabled w e); [|done]. by destruct (handle cfg e w).
Qed.

Lemma trace_snoc (evs : list Event) (e : Event) :
  trace cfg (evs ++ [e]) = trace cfg evs ++ snd (step cfg (world_after cfg evs) e).
Proof.
  unfold trace, world_after. rewrite run_app. simpl.
  destruct (step cfg (run cfg _ evs).1 e); simpl. by rewrite app_nil_r.
Qed.

Lemma filter_none (f : Effect -> bool) (l : list Effect) :
  (forall fx, fx ∈ l -> f fx = false) -> filter f l = [].
Proof.
  induction l as [|x l IH]; intros H; [done|].
  rewrite filter_cons. rewrite (H x) by (apply elem_of_cons; by left).
  simpl. apply IH. intros fx Hfx. apply H, elem_of_cons. by right.
Qed.

(** Every call of a task is one of these. *)
Lemma step_effect_kinds (w : World) (e : Event) (fx : Effect) :
  closure_inv w -> fx ∈ snd (step cfg w e) ->
  (exists s rs, e = SocketCreated s /\
     fx = WebSocketSend s rs (eth_subscribe (params cfg)) (OnResponse s)) \/
  (exists s rs sid i, fx = WebSocketSend s rs (eth_unsubscribe sid) (ResolveCleanup i)) \/
  fx = UnsubscribeSocket \/
  (exists p, fx = OnData p) \/
  (exists err, onError cfg = true /\ fx = OnError err).
Proof.
  intros [Hact _] Hfx. apply step_effects in Hfx as [Hen Hc].
  destruct e as [s| |e0|s r|s|s rs| |j r]; try done.
  - left. eauto.
  - destruct Hc as [Ho ->]. eauto 10.
  - destruct (r_error r); [destruct Hc as [Ho ->]; eauto 10|].
    destruct (r_id r); [|destruct Hc as [_ ->]; eauto 10].
    destruct Hc as [Ha [[Hf _]|Hc]]; [by rewrite (Hact Ha) in Hf|].
    apply cleanup_effects in Hc as [->|(s' & sid & _ & _ & _ & ->)]; eauto 10.
  - apply cleanup_effects in Hc as [->|(s' & sid & _ & _ & _ & ->)]; eauto 10.
Qed.

Lemma trace_effects (Q : Effect -> Prop) :
  Q (SubscribeSocket (url_ cfg)) ->
  (forall w e fx, closure_inv w -> fx ∈ snd (step cfg w e) -> Q fx) ->
  forall evs fx, fx ∈ trace cfg evs -> Q fx.
Proof.
  intros Hinit Hstep evs fx. unfold trace. simpl.
  rewrite elem_of_cons. intros [->|H]; [done|].
  exact (run_effects cfg Q Hstep evs (fst (subscribe cfg)) fx (closure_inv_init cfg) H).
Qed.

End Coverage.

(** X3: [cleanup] is a [const] declared after the [await], and [onResponse]
    reads it when [active] is false; in no run is it read before its
    declaration has run, so no callback raises a [ReferenceError]. *)
Theorem X3_cleanup_never_read_before_declaration (cfg : Config) (evs : list Event) :
  filter is_reference_error (trace cfg evs) = [].
Proof.
  apply filter_none. intros fx Hfx.
  destruct fx as [| | | | |[]]; try done.
  by apply no_reference_error in Hfx.
Qed.

(** X6: a subscription registers with the socket registry exactly once,
    when [subscribe] is called, with the endpoint of the transport; no later
    task registers again. *)
Theorem X6_registers_exactly_once (cfg : Config) (evs : list Event) :
  filter is_registration (trace cfg evs) = [SubscribeSocket (url_ cfg)].
Proof.
  unfold trace. simpl. rewrite filter_cons. simpl. f_equal.
  apply filter_none. intros fx Hfx.
  assert (Hq : forall fx, fx ∈ snd (run cfg (fst (subscribe cfg)) evs) ->
                          is_registration fx = false).
  { intros fx0. apply (run_effects cfg (fun fx => is_registration fx = false));
      [|apply closure_inv_init].
    intros w e fx1 Hinv Hin.
    destruct (step_effect_kinds cfg w e fx1 Hinv Hin)
      as [(?&?&_&->)|[(?&?&?&?&->)|[->|[(?&->)|(?&_&->)]]]]; done. }
  by apply Hq.
Qed.

(** ** Open calls and teardowns over a whole run *)

Lemma handle_open_calls (cfg : Config) (e : Event) (w : World) :
  omap open_call_socket (snd (handle cfg e w)) = omap created_socket [e].
Proof.
  destruct e; simpl; try done.
  - unfold onRegisterFailed, call_onError. simpl. by case_match.
  - unfold onResponse, cleanup, call_onError. repeat case_match; done.
  - unfold unsubscribe, cleanup. repeat case_match; done.
Qed.

(** X5: over a whole run, the [eth_subscribe] calls are exactly one per
    socket creation, on the created socket and in the order of creation;
    neither [subscribe] itself nor any other callback ([unsubscribe]
    included) makes an open call. *)
Theorem X5_one_open_call_per_socket_creation (cfg : Config) (evs : list Event) :
  omap open_call_socket (trace cfg evs) = omap created_socket evs.
Proof.
  assert (Hrun : forall w,
            omap open_call_socket (snd (run cfg w evs)) = omap created_socket evs).
  { induction evs as [|e evs IH]; intros w; [done|].
    rewrite run_cons. simpl snd. rewrite omap_app, IH, step_snd.
    change (e :: evs) with ([e] ++ evs). rewrite (omap_app _ [e] evs).
    f_equal. destruct (enabled w e) eqn:Hen; [apply handle_open_calls|].
    by destruct e. }
  unfold trace. simpl. apply Hrun.
Qed.

Lemma cleanup_calls_never_unsubscribes (evs : list Event) :
  never_unsubscribes evs = true -> cleanup_calls false evs = 0.
Proof.
  induction evs as [|e evs IH]; [done|]. simpl.
  intros H. apply andb_prop in H as [He H].
  destruct e; try done; by apply IH.
Qed.

Lemma run_stays_active (cfg : Config) (evs : list Event) (w : World) :
  never_unsubscribes evs = true -> active w = true ->
  active (fst (run cfg w evs)) = true.
Proof.
  revert w. induction evs as [|e evs IH]; intros w H Ha; [done|].
  simpl in H. apply andb_prop in H as [He H].
  rewrite run_cons. simpl. apply IH; [done|].
  rewrite step_active. destruct (enabled w e); [|done]. by destruct e.
Qed.

(** X4: as long as the consumer does not call [unsubscribe()], no
    [eth_unsubscribe] message is ever sent and the subscription stays
    active, whatever the sockets and the server do (closes, re-creations,
    error replies, late acknowledgements). *)
Theorem X4_no_teardown_without_unsubscribe (cfg : Config) (evs : list Event) :
  never_unsubscribes evs = true ->
  teardowns (trace cfg evs) = [] /\ active (world_after cfg evs) = true.
Proof.
  intros H. split.
  - apply nil_length_inv.
    pose proof (run_teardowns_le cfg evs (fst (subscribe cfg))) as Hle.
    simpl in Hle. rewrite (cleanup_calls_never_unsubscribes evs H) in Hle.
    unfold trace, teardowns in *. simpl. rewrite filter_cons. simpl. lia.
  - by apply run_stays_active.
Qed.

Lemma X4_no_teardown_without_unsubscribe_witness :
  teardowns (trace demo (rebound ++ [SocketClosed 1; Response 2 (failed 3 denied)])) = [] /\
  active (world_after demo (rebound ++ [SocketClosed 1; Response 2 (failed 3 denied)]))
    = true.
Proof.
  exact (X4_no_teardown_without_unsubscribe demo
           (rebound ++ [SocketClosed 1; Response 2 (failed 3 denied)]) eq_refl).
Defined.

(** ** Where a teardown comes from *)

Lemma acked_app (evs1 evs2 : list Event) (sid : Hash) :
  acked evs1 sid \/ acked evs2 sid -> acked (evs1 ++ evs2) sid.
Proof.
  intros [(s & r & H & ?)|(s & r & H & ?)]; exists s, r;
    (split; [apply elem_of_app; eauto|done]).
Qed.

(** The identifier of the record was supplied by an acknowledgement, and
    the bound socket is one the registry created. *)
Lemma bound_inv (cfg : Config) (evs : list Event) :
  (forall sid, subscriptionId (world_after cfg evs) = Some sid -> acked evs sid) /\
  (forall s, subscriptionSocket (world_after cfg evs) = Some s ->
             SocketCreated s ∈ evs).
Proof.
  induction evs as [|e evs [IHid IHs]] using rev_ind; [done|].
  rewrite world_after_snoc, step_subscriptionId, step_subscriptionSocket,
    handle_subscriptionId, handle_subscriptionSocket.
  set (w := world_after cfg evs) in *.
  split.
  - intros sid. destruct (enabled w e) eqn:Hen;
      [|intros H; apply acked_app; left; by apply IHid].
    destruct e as [s| |e0|s r|s|s rs| |j r]; try done;
      try (intros H; apply acked_app; left; by apply IHid).
    + destruct (is_ack r) eqn:Hack.
      * intros H. apply acked_app. right. exists s, r.
        split; [by apply list_elem_of_singleton|done].
      * intros H. apply acked_app. left. by apply IHid.
    + case_decide; [done|]. intros Hsome. apply acked_app. left. by apply IHid.
  - intros s. rewrite elem_of_app.
    destruct (enabled w e) eqn:Hen; [|intros H; left; by apply IHs].
    destruct e as [s0| |e0|s0 r|s0|s0 rs| |j r];
      try (intros H; left; by apply IHs).
    + intros [= ->]. right. by apply list_elem_of_singleton.
    + case_decide; [done|]. intros Hsome. left. by apply IHs.
Qed.

(** X7: every [eth_unsubscribe] message of a run carries an identifier that
    an earlier open-call acknowledgement supplied, and is sent on a socket
    the registry created (so one on which the open call was made): no
    teardown is sent for an identifier the server never handed out. *)
Theorem X7_teardown_provenance
    (cfg : Config) (evs : list Event)
    (s : Socket) (rs : ReadyState) (body : Body) (l : Listener) :
  WebSocketSend s rs body l ∈ trace cfg evs ->
  b_method body = "eth_unsubscribe" ->
  exists sid, body = eth_unsubscribe sid /\ acked evs sid /\ SocketCreated s ∈ evs.
Proof.
  induction evs as [|e evs IH] using rev_ind.
  - unfold trace. simpl. intros H. by apply list_elem_of_singleton in H.
  - rewrite trace_snoc, elem_of_app. intros [H|H] Hm.
    + destruct (IH H Hm) as (sid & ? & ? & ?). exists sid.
      split; [done|]. split; [apply acked_app; by left|].
      apply elem_of_app. by left.
    + destruct (bound_inv cfg evs) as [Hid Hs].
      set (w := world_after cfg evs) in *.
      apply step_effects in H as [Hen Hc].
      destruct e as [s0| |e0|s0 r|s0|s0 rs0| |j r]; try done.
      * injection Hc as _ _ -> _. done.
      * by destruct Hc.
      * destruct (r_error r) eqn:Herr; [by destruct Hc|].
        destruct (r_id r) eqn:Hrid; [|by destruct Hc].
        destruct Hc as [_ [[_ Hc]|Hc]]; [done|].
        apply cleanup_effects in Hc as [Hc|(s' & sid & Hs' & Hid' & _ & Hc)]; [done|].
        injection Hc as -> _ -> _. simpl in Hs', Hid'.
        exists sid. split; [done|]. split.
        -- apply acked_app. right. exists s0, r.
           split; [by apply list_elem_of_singleton|].
           split; [unfold is_ack; by rewrite Herr, Hrid|done].
        -- apply elem_of_app. left. by apply Hs.
      * apply cleanup_effects in Hc as [Hc|(s' & sid & Hs' & Hid' & _ & Hc)]; [done|].
        injection Hc as -> _ -> _. simpl in Hs', Hid'.
        exists sid. split; [done|]. split.
        -- apply acked_app. left. by apply Hid.
        -- apply elem_of_app. left. by apply Hs.
Qed.

Lemma X7_teardown_provenance_witness :
  exists sid, eth_unsubscribe "0xb" = eth_unsubscribe sid /\
              acked (cancelled_while_reopening ++ [Response 2 (ok "0xb" 2)]) sid /\
              SocketCreated 2 ∈ cancelled_while_reopening ++ [Response 2 (ok "0xb" 2)].
Proof.
  apply (X7_teardown_provenance demo
           (cancelled_while_reopening ++ [Response 2 (ok "0xb" 2)])
           2 OPEN (eth_unsubscribe "0xb") (ResolveCleanup 1)); [|reflexivity].
  apply (bool_decide_unpack _). vm_compute. exact I.
Defined.

(** ** [unsubscribe()] on an open subscription *)

(** X8: called on a record that holds an identifier and a bound socket
    whose [readyState] is OPEN, [unsubscribe()] calls the registry's
    unregister callback (when it has one) and then sends exactly one
    message, [eth_unsubscribe] with that identifier on that socket; it clears
    [active] and leaves the identifier and the bound socket in place. *)
Theorem X8_unsubscribe_open_subscription
    (cfg : Config) (w : World) (sid : Hash) (s : Socket) :
  enabled w Unsubscribe = true ->
  subscriptionId w = Some sid -> subscriptionSocket w = Some s ->
  readyState w s = OPEN ->
  snd (step cfg w Unsubscribe) =
    (if unsubscribeSocket w then [UnsubscribeSocket] else []) ++
    [WebSocketSend s OPEN (eth_unsubscribe sid) (ResolveCleanup (length (cleanups w)))] /\
  active (fst (step cfg w Unsubscribe)) = false /\
  subscriptionId (fst (step cfg w Unsubscribe)) = Some sid /\
  subscriptionSocket (fst (step cfg w Unsubscribe)) = Some s.
Proof.
  intros Hen Hid Hs Ho.
  rewrite step_active, step_subscriptionId, step_subscriptionSocket,
    handle_subscriptionId, handle_subscriptionSocket, Hen.
  repeat split; try done.
  rewrite step_unsubscribe. simpl in Hen. rewrite Hen.
  unfold cleanup. simpl. rewrite Hid, Hs.
  unfold readyState in *. simpl. rewrite Ho. by rewrite decide_True.
Qed.

Lemma X8_unsubscribe_open_subscription_witness :
  snd (step demo (world_after demo opened) Unsubscribe) =
    [UnsubscribeSocket;
     WebSocketSend 1 OPEN (eth_unsubscribe "0xa") (ResolveCleanup 0)] /\
  active (fst (step demo (world_after demo opened) Unsubscribe)) = false /\
  subscriptionId (fst (step demo (world_after demo opened) Unsubscribe)) = Some "0xa" /\
  subscriptionSocket (fst (step demo (world_after demo opened) Unsubscribe)) = Some 1.
Proof.
  exact (X8_unsubscribe_open_subscription demo (world_after demo opened) "0xa" 1
           eq_refl eq_refl eq_refl eq_refl).
Defined.

(** ** After [subscribe()] has settled *)

(** Once [subscribe] has resumed, the promise it awaited is settled. *)
Lemma settled_inv_step (cfg : Config) (w : World) (e : Event) :
  (returned w <> Pending -> opening w <> Pending) ->
  returned (fst (step cfg w e)) <> Pending -> opening (fst (step cfg w e)) <> Pending.
Proof.
  intros Hinv. rewrite step_returned, step_opening.
  destruct (enabled w e); [|done]. rewrite handle_opening.
  destruct (returned w) as [|u|rej] eqn:Hr.
  - by destruct e as [s| |failure|s r|s|s rs| |j r];
      try destruct (r_error r); try destruct (r_id r); destruct (opening w).
  - intros _. assert (Ho : opening w <> Pending) by (by apply Hinv).
    by destruct e as [s| |failure|s r|s|s rs| |j r];
      try destruct (r_error r); try destruct (r_id r); destruct (opening w).
  - intros _. assert (Ho : opening w <> Pending) by (by apply Hinv).
    by destruct e as [s| |failure|s r|s|s rs| |j r];
      try destruct (r_error r); try destruct (r_id r); destruct (opening w).
Qed.

Lemma settled_inv (cfg : Config) (evs : list Event) :
  returned (world_after cfg evs) <> Pending -> opening (world_after cfg evs) <> Pending.
Proof.
  apply (run_preserves cfg (fun w => returned w <> Pending -> opening w <> Pending));
    [|done].
  intros w e. apply settled_inv_step.
Qed.

Lemma set_opening_same (w : World) : set_opening (opening w) w = w.
Proof. by destruct w. Qed.

(** X9: once [subscribe()] has resolved it stays resolved and its handle
    stays usable, whatever happens afterwards; in particular an error reply
    to a repeated open call (after a reconnection) changes nothing in the
    record and only calls [onError], when the consumer passed one. *)
Theorem X9_resolved_subscribe_stays_resolved (cfg : Config) (evs : list Event) :
  returned (world_after cfg evs) = Fulfilled tt ->
  (forall evs',
     returned (world_after cfg (evs ++ evs')) = Fulfilled tt /\
     enabled (world_after cfg (evs ++ evs')) Unsubscribe = true) /\
  (forall s r err,
     enabled (world_after cfg evs) (Response s r) = true -> r_error r = Some err ->
     step cfg (world_after cfg evs) (Response s r) =
       (world_after cfg evs, if onError cfg then [OnError (RpcErrorValue err)] else [])).
Proof.
  intros Hret. split.
  - intros evs'. rewrite world_after_app. simpl.
    rewrite run_returned_stable; by rewrite Hret.
  - intros s r err Hen Herr.
    assert (Ho : opening (world_after cfg evs) <> Pending)
      by (apply settled_inv; by rewrite Hret).
    set (w := world_after cfg evs) in *.
    unfold step. rewrite Hen. simpl. unfold onResponse. rewrite Herr.
    assert (reject (RpcErrorValue err) (opening w) = opening w) as ->
      by (by destruct (opening w)).
    rewrite set_opening_same, resume_settled; [done|by rewrite Hret].
Qed.

Lemma X9_resolved_subscribe_stays_resolved_witness :
  (returned (world_after demo (reopening ++ [Response 2 (failed 2 denied)])) = Fulfilled tt /\
   enabled (world_after demo (reopening ++ [Response 2 (failed 2 denied)])) Unsubscribe
     = true) /\
  step demo (world_after demo reopening) (Response 2 (failed 2 denied)) =
    (world_after demo reopening, [OnError (RpcErrorValue denied)]).
Proof.
  destruct (X9_resolved_subscribe_stays_resolved demo reopening eq_refl) as [H1 H2].
  split.
  - exact (H1 [Response 2 (failed 2 denied)]).
  - exact (H2 2 (failed 2 denied) denied eq_refl eq_refl).
Defined.

(** X10: [subscribe()] rejects only because the open call failed while it
    was pending: if its promise is rejected with [e], then some event of the
    run, handled while the promise was still pending, is either an open-call
    response whose error is [e] or a failed socket registration with [e]. *)
Theorem X10_subscribe_rejects_only_on_failure
    (cfg : Config) (evs : list Event) (e : Thrown) :
  returned (world_after cfg evs) = Rejected e ->
  exists pre ev post,
    evs = pre ++ ev :: post /\
    returned (world_after cfg pre) = Pending /\
    enabled (world_after cfg pre) ev = true /\
    ((exists s r err, ev = Response s r /\ r_error r = Some err /\ e = RpcErrorValue err) \/
     ev = RegisterFailed e) /\
    returned (world_after cfg (pre ++ [ev])) = Rejected e.
Proof.
  induction evs as [|ev evs IH] using rev_ind; [done|].
  rewrite world_after_snoc. intros Hret.
  destruct (returned (world_after cfg evs)) as [|[]|err0] eqn:Hprev.
  - clear IH.
    pose proof (closure_inv_world_after cfg evs) as [_ Hopen].
    specialize (Hopen Hprev).
    exists evs, ev, []. split; [done|]. split; [done|].
    rewrite world_after_snoc.
    set (w := world_after cfg evs) in *.
    rewrite step_returned, Hprev in Hret.
    destruct (enabled w ev) eqn:Hen; [|done].
    split; [done|]. split.
    + rewrite handle_opening, Hopen in Hret.
      destruct ev as [s| |e0|s r|s|s rs| |j r]; try done.
      * right. by injection Hret as ->.
      * left. destruct (r_error r) as [err|] eqn:Herr.
        -- exists s, r, err. by injection Hret as <-.
        -- by destruct (r_id r).
    + rewrite step_returned, Hprev, Hen. done.
  - rewrite step_returned_stable in Hret; congruence.
  - rewrite step_returned_stable in Hret by (by rewrite Hprev).
    rewrite Hprev in Hret. injection Hret as ->.
    destruct (IH eq_refl) as (pre & ev' & post & -> & H).
    exists pre, ev', (post ++ [ev]). split; [|done].
    by rewrite <- app_assoc.
Qed.

Lemma X10_subscribe_rejects_only_on_failure_witness :
  exists pre ev post,
    open_call_fails ++ [Registered; Response 1 (ok "0xa" 2)] = pre ++ ev :: post /\
    returned (world_after demo pre) = Pending /\
    enabled (world_after demo pre) ev = true /\
    ((exists s r err, ev = Response s r /\ r_error r = Some err /\
                      RpcErrorValue denied = RpcErrorValue err) \/
     ev = RegisterFailed (RpcErrorValue denied)) /\
    returned (world_after demo (pre ++ [ev])) = Rejected (RpcErrorValue denied).
Proof.
  exact (X10_subscribe_rejects_only_on_failure demo
           (open_call_fails ++ [Registered; Response 1 (ok "0xa" 2)])
           (RpcErrorValue denied) eq_refl).
Defined.

(** ** Unsubscribing after the socket changed *)

Lemma run_no_creation (cfg : Config) (evs : list Event) (w : World) :
  no_creation evs = true -> subscriptionSocket w = None ->
  subscriptionSocket (fst (run cfg w evs)) = None.
Proof.
  revert w. induction evs as [|e evs IH]; intros w Hno Hs; [done|].
  rewrite run_cons. simpl. simpl in Hno. apply andb_prop in Hno as [He Hno].
  apply IH; [done|].
  rewrite step_subscriptionSocket, handle_subscriptionSocket.
  destruct (enabled w e); [|done].
  destruct e; try done. by case_decide.
Qed.

Lemma unsubscribe_without_teardown (cfg : Config) (w : World) :
  subscriptionId w = None \/ subscriptionSocket w = None ->
  teardowns (snd (step cfg w Unsubscribe)) = [].
Proof.
  intros H. rewrite step_unsubscribe.
  destruct (is_fulfilled (returned w)); [|done].
  apply cleanup_teardowns_none. simpl. tauto.
Qed.

(** X11: after the record was rebound to a new socket, [unsubscribe()]
    sends no teardown (the old identifier is gone) as long as no open-call
    response has been handled; and after the close handler of the bound
    socket ran, [unsubscribe()] sends no teardown as long as no socket has
    been created, even if a late acknowledgement has set an identifier. *)
Theorem X11_no_teardown_after_socket_change
    (cfg : Config) (w : World) (socket : Socket) (evs : list Event) :
  (no_ack evs = true ->
   teardowns
     (snd (step cfg (fst (run cfg (fst (step cfg w (SocketCreated socket))) evs))
             Unsubscribe)) = []) /\
  (enabled w (SocketClosed socket) = true -> subscriptionSocket w = Some socket ->
   no_creation evs = true ->
   teardowns
     (snd (step cfg (fst (run cfg (fst (step cfg w (SocketClosed socket))) evs))
             Unsubscribe)) = []).
Proof.
  split.
  - intros Hno. apply unsubscribe_without_teardown. left.
    apply run_no_ack; [done|].
    by rewrite step_subscriptionId, handle_subscriptionId.
  - intros Hen Hs Hno. apply unsubscribe_without_teardown. right.
    apply run_no_creation; [done|].
    rewrite step_subscriptionSocket, handle_subscriptionSocket, Hen.
    by rewrite decide_True.
Qed.

Lemma X11_no_teardown_after_socket_change_witness :
  teardowns
    (snd (step demo
            (fst (run demo (fst (step demo (world_after demo opened) (SocketCreated 2)))
                    [Response 1 (notification new_head)]))
            Unsubscribe)) = [] /\
  teardowns
    (snd (step demo
            (fst (run demo (fst (step demo (world_after demo opened) (SocketClosed 1)))
                    [Response 1 (ok "0xc" 7)]))
            Unsubscribe)) = [].
Proof.
  split.
  - apply (proj1 (X11_no_teardown_after_socket_change demo (world_after demo opened) 2
                    [Response 1 (notification new_head)])).
    reflexivity.
  - apply (proj2 (X11_no_teardown_after_socket_change demo (world_after demo opened) 1
                    [Response 1 (ok "0xc" 7)])); reflexivity.
Defined.

(** ** The registry's unregister callback *)

Lemma handle_unsubscribeSocket (cfg : Config) (e : Event) (w : World) :
  unsubscribeSocket (fst (handle cfg e w)) =
  match e with Registered => true | _ => unsubscribeSocket w end.
Proof.
  destruct e; simpl; try done.
  - unfold onResponse, cleanup. repeat case_match; done.
  - unfold onSocketClosed. by case_match.
  - unfold unsubscribe, cleanup. repeat case_match; done.
  - unfold resolve_cleanup. repeat case_match; done.
Qed.

Lemma step_unsubscribeSocket (cfg : Config) (w : World) (e : Event) :
  unsubscribeSocket (fst (step cfg w e)) =
  if enabled w e then unsubscribeSocket (fst (handle cfg e w)) else unsubscribeSocket w.
Proof.
  unfold step. destruct (enabled w e); [|done].
  destruct (handle cfg e w) as [w' fx]; simpl.
  by destruct (resume_fields w') as (_ & _ & _ & -> & _).
Qed.

Lemma registered_inv (cfg : Config) (evs : list Event) :
  unsubscribeSocket (world_after cfg evs) = true -> Registered ∈ evs.
Proof.
  induction evs as [|e evs IH] using rev_ind; [done|].
  rewrite world_after_snoc, step_unsubscribeSocket, handle_unsubscribeSocket.
  rewrite elem_of_app.
  destruct (enabled (world_after cfg evs) e); [|by left; apply IH].
  destruct e; try (by left; apply IH).
  intros _. right. by apply list_elem_of_singleton.
Qed.

Lemma cleanup_unregisters (by_unsubscribe : bool) (w : World) :
  UnsubscribeSocket ∈ snd (cleanup by_unsubscribe w) -> unsubscribeSocket w = true.
Proof.
  unfold cleanup. destruct (unsubscribeSocket w); [done|].
  repeat case_match; simpl; intros Hin;
    first [by apply elem_of_nil in Hin | by apply list_elem_of_singleton in Hin].
Qed.

(** X13: the registry's unregister callback is called only once
    [subscribeSocket] has fulfilled: if a run contains such a call, the
    registration was fulfilled in that run.  An [unsubscribe()] that comes
    before leaves the socket-creation listener registered. *)
Theorem X13_unregister_only_after_registration (cfg : Config) (evs : list Event) :
  UnsubscribeSocket ∈ trace cfg evs -> Registered ∈ evs.
Proof.
  induction evs as [|e evs IH] using rev_ind.
  - unfold trace. simpl. intros H. by apply list_elem_of_singleton in H.
  - rewrite trace_snoc, !elem_of_app. intros [H|H]; [left; by apply IH|].
    left. apply (registered_inv cfg).
    set (w := world_after cfg evs) in *.
    apply step_effects in H as [Hen Hc].
    destruct e as [s| |e0|s r|s|s rs| |j r]; try done.
    + by destruct Hc.
    + destruct (r_error r); [by destruct Hc|].
      destruct (r_id r); [|by destruct Hc].
      destruct Hc as [_ [[_ Hc]|Hc]]; [done|].
      by apply cleanup_unregisters in Hc.
    + by apply cleanup_unregisters in Hc.
Qed.

Lemma X13_unregister_only_after_registration_witness :
  Registered ∈ double_unsubscribe.
Proof.
  apply (X13_unregister_only_after_registration demo double_unsubscribe).
  apply (bool_decide_unpack _). vm_compute. exact I.
Defined.

(** ** What the consumer receives *)

Lemma handle_data (cfg : Config) (e : Event) (w : World) :
  omap data_of (snd (handle cfg e w)) =
  match e with
  | Response _ r => if is_notification r then [r_params r] else []
  | _ => []
  end.
Proof.
  destruct e; simpl; try done.
  - unfold onRegisterFailed, call_onError. simpl. by case_match.
  - unfold onResponse, is_notification, cleanup, call_onError.
    repeat case_match; simpl; try done;
      match goal with H : bool_decide _ = _ |- _ =>
        first [apply bool_decide_eq_true_1 in H | apply bool_decide_eq_false_1 in H]
      end; done.
  - unfold unsubscribe, cleanup. repeat case_match; done.
Qed.

Lemma step_data (cfg : Config) (w : World) (e : Event) :
  omap data_of (snd (step cfg w e)) =
  match e with
  | Response s r =>
    if bool_decide (s ∈ listeners w) && is_notification r then [r_params r] else []
  | _ => []
  end.
Proof.
  rewrite step_snd. destruct (enabled w e) eqn:Hen.
  - rewrite handle_data. destruct e; try done. simpl in Hen. by rewrite Hen.
  - destruct e; try done. simpl in Hen. by rewrite Hen.
Qed.

Lemma step_listeners_grow (cfg : Config) (w : World) (e : Event) :
  listeners (fst (step cfg w e)) =
  match e with SocketCreated s => s :: listeners w | _ => listeners w end.
Proof.
  rewrite step_listeners, handle_listeners.
  destruct (enabled w e) eqn:Hen; destruct e; done.
Qed.

(** X12: over a whole run, [onData] is called exactly once for every push
    notification (no error, no numeric id, method [eth_subscription]) that
    arrives on a socket whose open call has been made, with the [params] of
    that frame and in the order of arrival; nothing else reaches [onData],
    and neither [active] nor the identifier of the frame is looked at. *)
Theorem X12_onData_calls_of_a_run (cfg : Config) (evs : list Event) :
  omap data_of (trace cfg evs) = notifications [] evs.
Proof.
  assert (Hrun : forall w,
            omap data_of (snd (run cfg w evs)) = notifications (listeners w) evs).
  { induction evs as [|e evs IH]; intros w; [done|].
    rewrite run_cons. simpl snd.
    rewrite omap_app, IH, step_data, step_listeners_grow.
    by destruct e. }
  unfold trace. simpl. apply (Hrun (fst (subscribe cfg))).
Qed.

(** ** The first acknowledgement *)

(** X14: while [subscribe()] is pending, the first open-call
    acknowledgement that is handled resolves it: the task makes no call,
    stores the [result] as the identifier, leaves the subscription active
    and makes the handle available. *)
Theorem X14_first_acknowledgement_resolves_subscribe
    (cfg : Config) (evs : list Event) (s : Socket) (r : RpcResponse) :
  returned (world_after cfg evs) = Pending ->
  enabled (world_after cfg evs) (Response s r) = true ->
  is_ack r = true ->
  snd (step cfg (world_after cfg evs) (Response s r)) = [] /\
  returned (world_after cfg (evs ++ [Response s r])) = Fulfilled tt /\
  subscriptionId (world_after cfg (evs ++ [Response s r])) = r_result r /\
  active (world_after cfg (evs ++ [Response s r])) = true /\
  enabled (world_after cfg (evs ++ [Response s r])) Unsubscribe = true.
Proof.
  intros Hret Hen Hack.
  pose proof (closure_inv_world_after cfg evs) as [Hact Hopen].
  specialize (Hopen Hret).
  rewrite world_after_snoc.
  set (w := world_after cfg evs) in *.
  assert (Ha : active w = true).
  { destruct (active w) eqn:Ha; [done|]. rewrite Hact in Hret; done. }
  assert (Hf : returned (fst (step cfg w (Response s r))) = Fulfilled tt).
  { rewrite step_returned, Hen, Hret, handle_opening, Hopen.
    unfold is_ack in Hack. destruct (r_error r); [done|]. by destruct (r_id r). }
  split.
  { rewrite step_snd, Hen. simpl. unfold onResponse. unfold is_ack in Hack.
    destruct (r_error r); [done|]. destruct (r_id r); [|done].
    simpl. by rewrite Ha. }
  split; [done|]. split.
  { by rewrite step_subscriptionId, Hen, handle_subscriptionId, Hack. }
  split.
  { by rewrite step_active, Hen. }
  simpl. by rewrite Hf.
Qed.

Lemma X14_first_acknowledgement_resolves_subscribe_witness :
  snd (step demo (world_after demo awaiting_first_reply) (Response 1 (ok "0xa" 1))) = [] /\
  returned (world_after demo (awaiting_first_reply ++ [Response 1 (ok "0xa" 1)]))
    = Fulfilled tt /\
  subscriptionId (world_after demo (awaiting_first_reply ++ [Response 1 (ok "0xa" 1)]))
    = Some "0xa" /\
  active (world_after demo (awaiting_first_reply ++ [Response 1 (ok "0xa" 1)])) = true /\
  enabled (world_after demo (awaiting_first_reply ++ [Response 1 (ok "0xa" 1)]))
          Unsubscribe = true.
Proof.
  exact (X14_first_acknowledgement_resolves_subscribe demo awaiting_first_reply
           1 (ok "0xa" 1) eq_refl eq_refl eq_refl).
Defined.
